(** * The landing page of the chat assistant (front-end/app/page.tsx)

    A shallow embedding of the [Home] component: its six state cells, the
    submit and key handlers, the web-search toggle, the [disabled]
    attributes of the form controls and the typing animation driven by
    [useEffect] and [setTimeout]. *)

From Stdlib Require Import ZArith NArith Ascii String.
From stdpp Require Import base decidable option list.

Local Open Scope Z_scope.

(** ** JavaScript strings

    A JavaScript string is a sequence of UTF-16 code units; [length] and
    [slice] count code units. *)

Module JS.

Abbreviation jsstring := (list N).

(** A string literal of the source, for ASCII text. *)
Definition lit (s : string) : jsstring :=
  (λ a, N_of_ascii a) <$> list_ascii_of_string s.

(** [s.length] *)
Definition len (s : jsstring) : Z := Z.of_nat (length s).

(** A relative index of [slice]: negative counts from the end, and the
    result is clamped to [0, len]. *)
Definition relative_index (size k : Z) : Z :=
  if k <? 0 then Z.max (size + k) 0 else Z.min k size.

(** [s.slice(from, to)] *)
Definition slice (s : jsstring) (from to : Z) : jsstring :=
  let a := relative_index (len s) from in
  let b := relative_index (len s) to in
  take (Z.to_nat (b - a)) (drop (Z.to_nat a) s).

(** White space and line terminators, the code units [trim] strips. *)
Definition isWhiteSpace (c : N) : bool :=
  ((9 <=? c) && (c <=? 13) || (c =? 32) || (c =? 160) || (c =? 5760)
   || (8192 <=? c) && (c <=? 8202) || (c =? 8232) || (c =? 8233)
   || (c =? 8239) || (c =? 8287) || (c =? 12288) || (c =? 65279))%N.

Fixpoint trimStart (s : jsstring) : jsstring :=
  match s with
  | c :: s' => if isWhiteSpace c then trimStart s' else s
  | [] => []
  end.

Definition trimEnd (s : jsstring) : jsstring :=
  reverse (trimStart (reverse s)).

(** [s.trim()] *)
Definition trim (s : jsstring) : jsstring := trimEnd (trimStart s).

(** Truthiness of a string: every string but the empty one. *)
Definition truthy (s : jsstring) : bool :=
  match s with [] => false | _ :: _ => true end.

End JS.

Import JS.

(** ** Component state *)

(** The six [useState] cells of [Home]. *)
Record State := mkState {
  query : jsstring;
  isLoading : bool;
  webSearchEnabled : bool;
  currentSampleIndex : nat;
  displayedText : jsstring;
  isTyping : bool
}.

#[global] Instance State_eq_dec : EqDecision State.
Proof. solve_decision. Defined.

(** The values passed to [useState]. *)
Definition initial : State :=
  {| query := []; isLoading := false; webSearchEnabled := false;
     currentSampleIndex := 0; displayedText := []; isTyping := true |}.

(** The state setters. *)
Definition setQuery (v : jsstring) (s : State) : State :=
  {| query := v; isLoading := isLoading s;
     webSearchEnabled := webSearchEnabled s;
     currentSampleIndex := currentSampleIndex s;
     displayedText := displayedText s; isTyping := isTyping s |}.

Definition setIsLoading (v : bool) (s : State) : State :=
  {| query := query s; isLoading := v;
     webSearchEnabled := webSearchEnabled s;
     currentSampleIndex := currentSampleIndex s;
     displayedText := displayedText s; isTyping := isTyping s |}.

Definition setWebSearchEnabled (v : bool) (s : State) : State :=
  {| query := query s; isLoading := isLoading s;
     webSearchEnabled := v;
     currentSampleIndex := currentSampleIndex s;
     displayedText := displayedText s; isTyping := isTyping s |}.

(** [setCurrentSampleIndex] is called with an updater function. *)
Definition setCurrentSampleIndex (f : nat → nat) (s : State) : State :=
  {| query := query s; isLoading := isLoading s;
     webSearchEnabled := webSearchEnabled s;
     currentSampleIndex := f (currentSampleIndex s);
     displayedText := displayedText s; isTyping := isTyping s |}.

Definition setDisplayedText (v : jsstring) (s : State) : State :=
  {| query := query s; isLoading := isLoading s;
     webSearchEnabled := webSearchEnabled s;
     currentSampleIndex := currentSampleIndex s;
     displayedText := v; isTyping := isTyping s |}.

Definition setIsTyping (v : bool) (s : State) : State :=
  {| query := query s; isLoading := isLoading s;
     webSearchEnabled := webSearchEnabled s;
     currentSampleIndex := currentSampleIndex s;
     displayedText := displayedText s; isTyping := v |}.

(** The prompts of the page. *)
Definition samplePrompts : list jsstring :=
  [ lit "How do I create a dashboard for monitoring CPU usage?";
    lit "What's the best way to set up alerting rules?";
    lit "Help me troubleshoot high memory usage alerts" ].

(** ** The typing animation *)

(** What one run of the effect body does: it arms a timeout whose callback
    updates the state, or it updates the state at once, or it throws
    (reading [length] of [undefined]). *)
Inductive Outcome :=
| Timeout (delay : Z) (callback : State → State)
| Sync (update : State → State)
| TypeError.

(** The three delays of the animation, in milliseconds. *)
Definition revealDelay : Z := 50.
Definition holdDuration : Z := 2000.
Definition eraseDelay : Z := 30.

Section Animator.

(** The animation is stated for any list of prompts; the page uses
    [samplePrompts]. *)
Variable prompts : list jsstring.

(** The body of the effect. [prompts !! i] is [None] where JavaScript
    reads [undefined]; only the typing branch reads [currentPrompt].
    For an empty list [(prev + 1) % 0] is NaN in JavaScript, while
    [`mod`] on [nat] leaves [prev + 1]; either way no prompt is found at
    the new index. *)
Definition effect (s : State) : Outcome :=
  let currentPrompt := prompts !! currentSampleIndex s in
  if isTyping s then
    match currentPrompt with
    | None => TypeError
    | Some currentPrompt =>
        if len (displayedText s) <? len currentPrompt then
          Timeout revealDelay
            (setDisplayedText
               (slice currentPrompt 0 (len (displayedText s) + 1)))
        else
          Timeout holdDuration (setIsTyping false)
    end
  else
    if len (displayedText s) >? 0 then
      Timeout eraseDelay
        (setDisplayedText (slice (displayedText s) 0 (-1)))
    else
      Sync (λ s, setIsTyping true
                   (setCurrentSampleIndex
                      (λ prev, ((prev + 1) `mod` length prompts)%nat) s)).

(** The state committed next: after the armed timeout fires, or after
    the immediate update. [None] when the effect throws. *)
Definition effect_step (s : State) : option State :=
  match effect s with
  | Timeout _ callback => Some (callback s)
  | Sync update => Some (update s)
  | TypeError => None
  end.

(** After a commit the effect runs; an immediate update commits again and
    the effect runs once more, this time in the typing branch. The result
    is the state in which a timeout is pending. *)
Definition settle (s : State) : option State :=
  match effect s with
  | Timeout _ _ => Some s
  | Sync update =>
      match effect (update s) with
      | TypeError => None
      | _ => Some (update s)
      end
  | TypeError => None
  end.

(** React renders again, and runs the effect, only when a setter changed
    a state cell. *)
Definition commit (old new : State) : option State :=
  if decide (old = new) then Some new else settle new.

(** One scheduled step of the animation: the pending timeout fires, and
    the page settles until the next timeout is pending. The cleanup of
    the effect clears the timeout of the previous run, so the pending
    timeout is always the one armed for the current state. *)
Definition tick (s : State) : option State :=
  match effect s with
  | Timeout _ callback => commit s (callback s)
  | Sync _ => Some s
  | TypeError => None
  end.

Fixpoint ticks (n : nat) (s : State) : option State :=
  match n with
  | O => Some s
  | S n' => tick s ≫= ticks n'
  end.

Fixpoint effect_steps (n : nat) (s : State) : option State :=
  match n with
  | O => Some s
  | S n' => effect_step s ≫= effect_steps n'
  end.

(** The delay of the timeout the effect arms, if it arms one. *)
Definition scheduledDelay (s : State) : option Z :=
  match effect s with
  | Timeout delay _ => Some delay
  | _ => None
  end.

End Animator.

(** The phases of the animation, read off the branches of the effect:
    typing with text still to reveal, typing with the whole prompt shown,
    and not typing. *)
Inductive Phase := Growing | Holding | Shrinking.

Definition phase (prompts : list jsstring) (s : State) : option Phase :=
  if isTyping s then
    match prompts !! currentSampleIndex s with
    | None => None
    | Some currentPrompt =>
        if len (displayedText s) <? len currentPrompt
        then Some Growing else Some Holding
    end
  else Some Shrinking.

(** The state when the component mounts. *)
Definition mount (prompts : list jsstring) : option State :=
  settle prompts initial.

(** ** The page: state and pending submission timeouts *)

(** The part of a keyboard event the handler can read. *)
Record KeyboardEvent := mkKey {
  key : jsstring;
  shiftKey : bool;
  ctrlKey : bool;
  altKey : bool;
  metaKey : bool
}.

(** The component state together with the delays of the pending
    [setTimeout(() => setIsLoading(false), ...)] calls, oldest first. The
    pending timeout of the animation is not stored: it is the one
    [effect] arms for the current state. *)
Record Page := mkPage {
  state : State;
  loadingTimeouts : list Z
}.

#[global] Instance Page_eq_dec : EqDecision Page.
Proof. solve_decision. Defined.

Definition withState (p : Page) (s : State) : Page :=
  {| state := s; loadingTimeouts := loadingTimeouts p |}.

(** The delay of the simulated request, in milliseconds. *)
Definition loadingDelay : Z := 3000.

(** [handleSubmit]: the new page, and whether [preventDefault] was called
    on the event. *)
Definition handleSubmit (p : Page) : Page * bool :=
  (if truthy (trim (query (state p))) then
     {| state := setIsLoading true (state p);
        loadingTimeouts := loadingTimeouts p ++ [loadingDelay] |}
   else p,
   true).

(** [handleKeyDown] *)
Definition handleKeyDown (e : KeyboardEvent) (p : Page) : Page * bool :=
  if bool_decide (key e = lit "Enter") && negb (shiftKey e) then
    handleSubmit p
  else (p, false).

(** The [onClick] of the web-search button. *)
Definition toggleWebSearch (p : Page) : Page :=
  withState p (setWebSearchEnabled (negb (webSearchEnabled (state p))) (state p)).

(** The [onChange] of the input. *)
Definition handleChange (value : jsstring) (p : Page) : Page :=
  withState p (setQuery value (state p)).

(** The callback of the oldest pending submission timeout. *)
Definition loadingTimeoutFires (p : Page) : Page :=
  {| state := setIsLoading false (state p);
     loadingTimeouts := tail (loadingTimeouts p) |}.

(** The [disabled] attributes of the input and of the submit button. *)
Definition inputDisabled (s : State) : bool := isLoading s.

Definition submitDisabled (s : State) : bool :=
  negb (truthy (trim (query s))) || isLoading s.

(** What can happen to the page: the user types in the input, presses a
    key in it, clicks the submit button or the web-search button, or a
    pending timeout fires. *)
Inductive Event :=
| Change (value : jsstring)
| KeyDown (e : KeyboardEvent)
| SubmitClick
| ToggleClick
| AnimationTimeout
| LoadingTimeout.

Section Dispatch.

Variable prompts : list jsstring.

(** A handler ran and left the page [new]; React commits it. *)
Definition render (old new : Page) : option Page :=
  withState new <$> commit prompts (state old) (state new).

(** The browser delivers no input or key event to a disabled input and
    no click to a disabled button; a timeout fires only if it is
    pending. [None] when the effect throws.

    A key press runs [handleKeyDown]. If the handler did not call
    [preventDefault], the browser goes on to its default action for the
    key. For Enter in the input of the form that is the implicit
    submission: unless the submit button is disabled, the form is
    submitted and its [onSubmit], which is [handleSubmit], runs, as for a
    click on the button. For any other key the default action is the
    browser's own editing or navigation; an edit of the text reaches the
    component as the change event of the input, which is the event
    [Change], with the value the edit gives. *)
Definition dispatch (p : Page) (ev : Event) : option Page :=
  match ev with
  | Change value =>
      if inputDisabled (state p) then Some p
      else render p (handleChange value p)
  | KeyDown e =>
      if inputDisabled (state p) then Some p
      else if (handleKeyDown e p).2 then render p (handleKeyDown e p).1
      else if bool_decide (key e = lit "Enter") then
        if submitDisabled (state p) then Some p
        else render p (handleSubmit p).1
      else Some p
  | SubmitClick =>
      if submitDisabled (state p) then Some p
      else render p (handleSubmit p).1
  | ToggleClick => render p (toggleWebSearch p)
  | AnimationTimeout => withState p <$> tick prompts (state p)
  | LoadingTimeout =>
      match loadingTimeouts p with
      | [] => Some p
      | _ :: _ => render p (loadingTimeoutFires p)
      end
  end.

Fixpoint run (evs : list Event) (p : Page) : option Page :=
  match evs with
  | [] => Some p
  | ev :: evs' => dispatch p ev ≫= run evs'
  end.

(** The page when the component mounts. *)
Definition mountPage : option Page :=
  (λ s, {| state := s; loadingTimeouts := [] |}) <$> mount prompts.

Definition reachable (p : Page) : Prop :=
  ∃ evs, mountPage ≫= run evs = Some p.

End Dispatch.

(** ** Invariants, phases of a cycle and example pages *)

(** The displayed text is a prefix of the current prompt, and no longer
    than it. *)
Definition prefix_inv (prompts : list jsstring) (s : State) : Prop :=
  ∃ currentPrompt,
    prompts !! currentSampleIndex s = Some currentPrompt
    ∧ displayedText s `prefix_of` currentPrompt
    ∧ 0 ≤ len (displayedText s) ≤ len currentPrompt.

(** A timeout of the animation is pending. *)
Definition settled (prompts : list jsstring) (s : State) : Prop :=
  is_Some (scheduledDelay prompts s).

(** The update of the branch that moves to the next prompt. *)
Definition nextSample (prompts : list jsstring) (s : State) : State :=
  setIsTyping true
    (setCurrentSampleIndex (λ prev, ((prev + 1) `mod` length prompts)%nat) s).

(** The branches of the effect, with the slices written as [take]. *)
Inductive effect_spec (prompts : list jsstring) (s : State) : Outcome → Prop :=
| effect_reveal p :
    isTyping s = true → prompts !! currentSampleIndex s = Some p →
    (length (displayedText s) < length p)%nat →
    effect_spec prompts s
      (Timeout revealDelay
         (setDisplayedText (take (S (length (displayedText s))) p)))
| effect_hold p :
    isTyping s = true → prompts !! currentSampleIndex s = Some p →
    (length p ≤ length (displayedText s))%nat →
    effect_spec prompts s (Timeout holdDuration (setIsTyping false))
| effect_throw :
    isTyping s = true → prompts !! currentSampleIndex s = None →
    effect_spec prompts s TypeError
| effect_erase :
    isTyping s = false → displayedText s ≠ [] →
    effect_spec prompts s
      (Timeout eraseDelay
         (setDisplayedText
            (take (length (displayedText s) - 1) (displayedText s))))
| effect_next :
    isTyping s = false → displayedText s = [] →
    effect_spec prompts s (Sync (nextSample prompts)).

(** The cells of the form: the animation writes none of them. *)
Definition same_form (s s' : State) : Prop :=
  query s' = query s ∧ isLoading s' = isLoading s
  ∧ webSearchEnabled s' = webSearchEnabled s.

(** What holds of every page the user can reach: the text is a prefix of
    the prompt, a timeout of the animation is pending, and a submission
    timeout is pending exactly while the page is loading. *)
Definition page_inv (prompts : list jsstring) (p : Page) : Prop :=
  prefix_inv prompts (state p)
  ∧ settled prompts (state p)
  ∧ loadingTimeouts p = if isLoading (state p) then [loadingDelay] else [].

Definition HiYo : list jsstring := [lit "Hi"; lit "Yo"].

(** A page with a query typed in, before and after it is submitted. *)
Definition ready : Page :=
  {| state := setQuery (lit "hello") initial; loadingTimeouts := [] |}.

Definition busy : Page :=
  {| state := setIsLoading true (setQuery (lit "hello") initial);
     loadingTimeouts := [loadingDelay] |}.

(** The Enter key with Control held and Shift not. *)
Definition ctrlEnter : KeyboardEvent :=
  {| key := lit "Enter"; shiftKey := false; ctrlKey := true;
     altKey := false; metaKey := false |}.

(** The page with the web-search flag replaced. *)
Definition withWebSearch (b : bool) (p : Page) : Page :=
  withState p (setWebSearchEnabled b (state p)).

(** The state of the animation with index [i], text [d] and typing flag
    [t], the cells of the form taken from [base]. *)
Definition anim (base : State) (i : nat) (d : jsstring) (t : bool) : State :=
  {| query := query base; isLoading := isLoading base;
     webSearchEnabled := webSearchEnabled base;
     currentSampleIndex := i; displayedText := d; isTyping := t |}.

(** The state [j] scheduled steps into the cycle of prompt [p] at index
    [i]: the text grows for [length p] steps, is held for one, and shrinks
    for the rest. *)
Definition cycleState (base : State) (i : nat) (p : jsstring) (j : nat) : State :=
  if (j <=? length p)%nat then anim base i (take j p) true
  else anim base i (take (2 * length p + 1 - j) p) false.

(** The number of scheduled steps spent on the [k]-th prompt shown, and
    the number of steps before it is first shown. *)
Definition cycleLength (prompts : list jsstring) (k : nat) : nat :=
  match prompts !! (k `mod` length prompts)%nat with
  | Some p => (2 * length p + 1)%nat
  | None => 0%nat
  end.

Fixpoint cycleStart (prompts : list jsstring) (k : nat) : nat :=
  match k with
  | O => 0%nat
  | S k' => (cycleStart prompts k' + cycleLength prompts k')%nat
  end.

(** ** What the page renders *)

(** The parts of the markup that depend on the state: the two conditional
    class names of the border, the value and [disabled] of the input, the
    class name of the web-search button, [disabled] of the submit button,
    the text of the sample prompt line (rendered under [!query]) and the
    text of the loading indicator (rendered under [isLoading]). *)
Record View := mkView {
  pulseClass : jsstring;
  gradientClass : jsstring;
  inputValue : jsstring;
  inputIsDisabled : bool;
  toggleClass : jsstring;
  submitIsDisabled : bool;
  samplePromptText : option jsstring;
  loadingText : option jsstring
}.

(** The code unit of the double quote around the sample prompt. *)
Definition quote : N := 34%N.

Definition view (s : State) : View :=
  {| pulseClass := if isLoading s then lit "animate-pulse-fast" else lit "";
     gradientClass :=
       if isLoading s then lit "animate-gradient-fast"
       else lit "animate-gradient";
     inputValue := query s;
     inputIsDisabled := inputDisabled s;
     toggleClass :=
       if webSearchEnabled s
       then lit "bg-gradient-to-r from-blue-500 to-cyan-500 text-white"
       else lit "bg-gray-700 text-gray-400 hover:bg-gray-600 hover:text-white";
     submitIsDisabled := submitDisabled s;
     samplePromptText :=
       if negb (truthy (query s))
       then Some ([quote] ++ displayedText s ++ [quote] ++ lit "|")
       else None;
     loadingText :=
       if isLoading s then Some (lit "Processing your query...") else None |}.

(** ** Form and animation as two halves of the state *)

(** The state with the animation cells of [s] and the form cells of
    [base]. *)
Definition reform (base s : State) : State :=
  anim base (currentSampleIndex s) (displayedText s) (isTyping s).

(** The page with its animation cells replaced by those of [a]. *)
Definition setAnimation (a : State) (p : Page) : Page :=
  withState p (reform (state p) a).

(** While the page is loading the trimmed query is not empty. *)
Definition loading_has_query (p : Page) : Prop :=
  isLoading (state p) = true → trim (query (state p)) ≠ [].

(** ** Time spent by the animation *)

(** The sum of the delays of the timeouts armed during [n] scheduled
    steps, in milliseconds. *)
Fixpoint elapsed (prompts : list jsstring) (n : nat) (s : State) : option Z :=
  match n with
  | O => Some 0
  | S n' =>
      d ← scheduledDelay prompts s;
      s' ← tick prompts s;
      r ← elapsed prompts n' s';
      Some (d + r)
  end.

(** The time from step [j] of the cycle of a prompt of [L] code units to
    the end of that cycle. *)
Definition remainingTime (L j : nat) : Z :=
  if (j <=? L)%nat
  then revealDelay * Z.of_nat (L - j) + holdDuration + eraseDelay * Z.of_nat L
  else eraseDelay * Z.of_nat (2 * L + 1 - j).

(** ** Facts about strings *)

Section StringFacts.

Implicit Types s d : jsstring.

Lemma len_nonneg s : 0 ≤ len s.
Proof. unfold len. lia. Qed.

Lemma len_nil_inv s : len s = 0 → s = [].
Proof. unfold len. destruct s; simpl; [done | lia]. Qed.

(** [s.slice(0, n)] keeps the first [n] code units. *)
Lemma slice_0_take s (n : Z) :
  0 ≤ n → slice s 0 n = take (Z.to_nat n) s.
Proof.
  intros Hn. unfold slice, relative_index, len.
  assert ((0 <? 0) = false) as -> by done.
  assert ((n <? 0) = false) as -> by lia.
  rewrite (Z.min_l 0) by lia.
  change (drop (Z.to_nat 0) s) with s. rewrite Z.sub_0_r.
  destruct (Z.min_spec n (Z.of_nat (length s))) as [[? ->] | [? ->]];
    [done |].
  rewrite Nat2Z.id, firstn_all. symmetry. apply take_ge. lia.
Qed.

(** [s.slice(0, -1)] drops the last code unit. *)
Lemma slice_0_minus1 s : slice s 0 (-1) = take (length s - 1) s.
Proof.
  unfold slice, relative_index, len.
  assert ((0 <? 0) = false) as -> by done.
  assert ((-1 <? 0) = true) as -> by done.
  rewrite (Z.min_l 0) by lia.
  change (drop (Z.to_nat 0) s) with s. rewrite Z.sub_0_r. f_equal. lia.
Qed.

Lemma trimStart_nil s :
  trimStart s = [] ↔ forallb isWhiteSpace s = true.
Proof.
  induction s as [| c s IH]; simpl; [done |].
  destruct (isWhiteSpace c); simpl; [done |]. split; discriminate.
Qed.

Lemma trimStart_head s c t :
  trimStart s = c :: t → isWhiteSpace c = false.
Proof.
  induction s as [| c' s IH]; simpl; [discriminate |].
  destruct (isWhiteSpace c') eqn:E; [done |]. congruence.
Qed.

Lemma forallb_reverse (f : N → bool) s :
  forallb f (reverse s) = forallb f s.
Proof.
  induction s as [| c s IH]; [done |].
  rewrite reverse_cons, forallb_app, IH. simpl. destruct (f c), (forallb f s); done.
Qed.

(** The trimmed string is empty exactly when every code unit is white
    space. *)
Lemma trim_nil s : trim s = [] ↔ forallb isWhiteSpace s = true.
Proof.
  unfold trim, trimEnd. rewrite <- trimStart_nil.
  split.
  - intros H. apply (f_equal reverse) in H.
    rewrite reverse_involutive in H. change (reverse []) with (@nil N) in H.
    apply trimStart_nil in H. rewrite forallb_reverse in H.
    destruct (trimStart s) as [| c t] eqn:E; [done |].
    apply trimStart_head in E. simpl in H. rewrite E in H. done.
  - intros ->. done.
Qed.

Lemma truthy_false s : truthy s = false ↔ s = [].
Proof. destruct s; simpl; split; congruence. Qed.

Lemma truthy_true s : truthy s = true ↔ s ≠ [].
Proof. destruct s; simpl; split; congruence. Qed.

End StringFacts.

(** ** Facts about the animation *)

Section AnimatorFacts.

Variable prompts : list jsstring.
Implicit Types s : State.

Lemma effect_cases s : effect_spec prompts s (effect prompts s).
Proof.
  unfold effect.
  destruct (isTyping s) eqn:Ht.
  - destruct (prompts !! currentSampleIndex s) as [p |] eqn:Hp;
      [| by apply effect_throw].
    destruct (len (displayedText s) <? len p) eqn:Hlt; unfold len in Hlt.
    + rewrite slice_0_take by (unfold len; lia).
      replace (Z.to_nat (len (displayedText s) + 1))
        with (S (length (displayedText s))) by (unfold len; lia).
      apply effect_reveal; [done | done | lia].
    + eapply effect_hold; [done | done | lia].
  - destruct (len (displayedText s) >? 0) eqn:Hgt; unfold len in Hgt.
    + rewrite slice_0_minus1. apply effect_erase; [done |].
      intros E. rewrite E in Hgt. done.
    + apply effect_next; [done |]. apply len_nil_inv. unfold len. lia.
Qed.

(** The effect reads the three cells of the animation only. *)
Lemma effect_ext s1 s2 :
  currentSampleIndex s1 = currentSampleIndex s2 →
  displayedText s1 = displayedText s2 →
  isTyping s1 = isTyping s2 →
  effect prompts s1 = effect prompts s2.
Proof. unfold effect. by intros -> -> ->. Qed.

Lemma prefix_inv_ext s1 s2 :
  currentSampleIndex s1 = currentSampleIndex s2 →
  displayedText s1 = displayedText s2 →
  prefix_inv prompts s1 → prefix_inv prompts s2.
Proof. unfold prefix_inv. by intros -> ->. Qed.

Lemma settled_ext s1 s2 :
  currentSampleIndex s1 = currentSampleIndex s2 →
  displayedText s1 = displayedText s2 →
  isTyping s1 = isTyping s2 →
  settled prompts s1 → settled prompts s2.
Proof.
  intros H1 H2 H3. unfold settled, scheduledDelay.
  by rewrite (effect_ext s1 s2).
Qed.

Lemma prefix_inv_initial : prompts ≠ [] → prefix_inv prompts initial.
Proof.
  destruct prompts as [| p ps] eqn:E; [done |]. intros _.
  exists p. simpl. split; [done |]. split; [apply prefix_nil |].
  unfold len. simpl. lia.
Qed.

Lemma prefix_inv_lookup s :
  prefix_inv prompts s → (currentSampleIndex s < length prompts)%nat.
Proof. intros (p & Hp & _). by eapply lookup_lt_Some. Qed.

(** Every update of the effect keeps the text a prefix of the prompt. *)
Lemma effect_step_prefix_inv s s' :
  prefix_inv prompts s → effect_step prompts s = Some s' →
  prefix_inv prompts s'.
Proof.
  intros Hinv Hstep. pose proof (prefix_inv_lookup s Hinv) as Hlt.
  destruct Hinv as (p & Hp & Hpre & Hlen).
  unfold effect_step in Hstep.
  destruct (effect_cases s) as [q Ht Hq Hl | q Ht Hq Hl | Ht Hq | Ht Hd | Ht Hd];
    simplify_eq; simpl.
  - exists p. simpl. split; [done |]. split; [apply prefix_take |].
    unfold len. rewrite length_take. lia.
  - exists p. done.
  - exists p. simpl. split; [done |]. split.
    + etrans; [apply prefix_take | done].
    + unfold len in *. rewrite length_take. lia.
  - destruct (lookup_lt_is_Some_2 prompts
                ((currentSampleIndex s + 1) `mod` length prompts)%nat)
      as [p' Hp'].
    { apply Nat.mod_upper_bound. lia. }
    exists p'. simpl. rewrite Hd. split; [done |].
    split; [apply prefix_nil |]. unfold len. simpl. lia.
Qed.

Lemma effect_step_total s :
  prefix_inv prompts s → is_Some (effect_step prompts s).
Proof.
  intros (p & Hp & _). unfold effect_step.
  destruct (effect_cases s); simplify_eq; eauto.
Qed.

(** After the immediate update the effect is in its typing branch. *)
Lemma effect_sync_inv s u :
  effect prompts s = Sync u →
  u = nextSample prompts ∧ isTyping s = false ∧ displayedText s = [].
Proof.
  intros E. pose proof (effect_cases s) as Hc. rewrite E in Hc.
  by inversion Hc.
Qed.

Lemma effect_typing_not_sync s u :
  isTyping s = true → effect prompts s ≠ Sync u.
Proof.
  intros Ht E. apply effect_sync_inv in E as (_ & Hf & _). congruence.
Qed.

Lemma settle_settled s s' :
  settle prompts s = Some s' → settled prompts s'.
Proof.
  unfold settle, settled, scheduledDelay.
  destruct (effect prompts s) as [d cb | u |] eqn:E; [| | done].
  - intros [= <-]. rewrite E. eauto.
  - apply effect_sync_inv in E as (-> & _ & _).
    destruct (effect prompts (nextSample prompts s)) as [d cb | u |] eqn:E';
      [| | done]; intros [= <-]; rewrite E'; [eauto |].
    by apply effect_typing_not_sync in E'.
Qed.

Lemma settle_of_settled s : settled prompts s → settle prompts s = Some s.
Proof.
  unfold settle, settled, scheduledDelay.
  destruct (effect prompts s); [done | |]; by intros [? ?].
Qed.

Lemma settle_prefix_inv s s' :
  prefix_inv prompts s → settle prompts s = Some s' → prefix_inv prompts s'.
Proof.
  intros Hinv. unfold settle.
  destruct (effect prompts s) as [d cb | u |] eqn:E; [| | done].
  - by intros [= <-].
  - intros H. apply (effect_step_prefix_inv s); [done |].
    unfold effect_step. rewrite E.
    destruct (effect prompts (u s)); congruence.
Qed.

Lemma settle_total s : prefix_inv prompts s → is_Some (settle prompts s).
Proof.
  intros Hinv. destruct (effect_step_total s Hinv) as [s1 Hs1].
  pose proof (effect_step_prefix_inv _ _ Hinv Hs1) as Hinv1.
  destruct (effect_step_total s1 Hinv1) as [s2 Hs2].
  unfold settle. unfold effect_step in Hs1, Hs2.
  destruct (effect prompts s) as [d cb | u |]; [eauto | | done].
  injection Hs1 as <-.
  destruct (effect prompts (u s)); [eauto | eauto | done].
Qed.

Lemma commit_prefix_inv s0 s s' :
  prefix_inv prompts s → commit prompts s0 s = Some s' →
  prefix_inv prompts s'.
Proof.
  unfold commit. case_decide; [by intros ? [= <-] |].
  apply settle_prefix_inv.
Qed.

Lemma commit_settled s0 s s' :
  settled prompts s0 → commit prompts s0 s = Some s' → settled prompts s'.
Proof.
  unfold commit. case_decide; [intros ? [= <-]; by subst |].
  intros _. apply settle_settled.
Qed.

Lemma commit_total s0 s :
  prefix_inv prompts s → is_Some (commit prompts s0 s).
Proof. unfold commit. case_decide; [eauto |]. apply settle_total. Qed.

(** One scheduled step keeps the text a prefix of the prompt, leaves a
    timeout pending, and never throws. *)
Lemma tick_prefix_inv s s' :
  prefix_inv prompts s → tick prompts s = Some s' → prefix_inv prompts s'.
Proof.
  intros Hinv. unfold tick.
  destruct (effect prompts s) as [d cb | u |] eqn:E; [| | done].
  - apply commit_prefix_inv. apply (effect_step_prefix_inv s); [done |].
    unfold effect_step. by rewrite E.
  - by intros [= <-].
Qed.

Lemma tick_settled s s' :
  settled prompts s → tick prompts s = Some s' → settled prompts s'.
Proof.
  intros Hs. unfold tick.
  destruct (effect prompts s) as [d cb | u |] eqn:E; [| | done].
  - by apply commit_settled.
  - by intros [= <-].
Qed.

Lemma tick_total s : prefix_inv prompts s → is_Some (tick prompts s).
Proof.
  intros Hinv. destruct (effect_step_total s Hinv) as [s1 Hs1].
  pose proof (effect_step_prefix_inv _ _ Hinv Hs1) as Hinv1.
  unfold tick. unfold effect_step in Hs1.
  destruct (effect prompts s) as [d cb | u |]; [| eauto | done].
  injection Hs1 as <-. by apply commit_total.
Qed.

Lemma effect_step_frame s s' :
  effect_step prompts s = Some s' → same_form s s'.
Proof.
  unfold effect_step.
  destruct (effect_cases s); intros [= <-]; by repeat split.
Qed.

Lemma settle_frame s s' : settle prompts s = Some s' → same_form s s'.
Proof.
  unfold settle.
  destruct (effect prompts s) as [d cb | u |] eqn:E; [| | done].
  - by intros [= <-].
  - intros H. apply effect_step_frame. unfold effect_step. rewrite E.
    destruct (effect prompts (u s)); congruence.
Qed.

Lemma tick_frame s s' : tick prompts s = Some s' → same_form s s'.
Proof.
  unfold tick, commit.
  destruct (effect prompts s) as [d cb | u |] eqn:E; [| | done].
  - assert (same_form s (cb s)) as (Hq & Hl & Hw).
    { apply effect_step_frame. unfold effect_step. by rewrite E. }
    case_decide.
    + intros [= <-]. by repeat split.
    + intros (Hq' & Hl' & Hw')%settle_frame.
      repeat split; congruence.
  - by intros [= <-].
Qed.

End AnimatorFacts.

(** ** Facts about the page *)

Section PageFacts.

Variable prompts : list jsstring.
Implicit Types p q : Page.

Lemma withState_state p : withState p (state p) = p.
Proof. by destruct p. Qed.

(** A handler that leaves the animation cells alone commits its page as
    it is. *)
Lemma render_same_animation p p' :
  settled prompts (state p) →
  currentSampleIndex (state p) = currentSampleIndex (state p') →
  displayedText (state p) = displayedText (state p') →
  isTyping (state p) = isTyping (state p') →
  render prompts p p' = Some p'.
Proof.
  intros Hs H1 H2 H3. unfold render, commit.
  case_decide; simpl; [by rewrite withState_state |].
  rewrite settle_of_settled by by apply (settled_ext prompts (state p)).
  simpl. by rewrite withState_state.
Qed.

Lemma render_unchanged p : render prompts p p = Some p.
Proof.
  unfold render, commit. rewrite decide_True by done.
  simpl. by rewrite withState_state.
Qed.

Lemma handleSubmit_animation p :
  currentSampleIndex (state p) = currentSampleIndex (state (handleSubmit p).1)
  ∧ displayedText (state p) = displayedText (state (handleSubmit p).1)
  ∧ isTyping (state p) = isTyping (state (handleSubmit p).1).
Proof. unfold handleSubmit. simpl. by destruct (truthy _). Qed.

Lemma handleKeyDown_animation e p :
  currentSampleIndex (state p) = currentSampleIndex (state (handleKeyDown e p).1)
  ∧ displayedText (state p) = displayedText (state (handleKeyDown e p).1)
  ∧ isTyping (state p) = isTyping (state (handleKeyDown e p).1).
Proof.
  unfold handleKeyDown. destruct (_ && _); [apply handleSubmit_animation | done].
Qed.

(** An Enter key press, with or without Shift, does what a click on the
    submit button does: without Shift through [handleKeyDown], with Shift
    through the implicit submission of the form. A press of any other key
    runs no handler that writes the state. *)
Lemma dispatch_KeyDown p e :
  dispatch prompts p (KeyDown e)
  = if bool_decide (key e = lit "Enter")
    then dispatch prompts p SubmitClick else Some p.
Proof.
  unfold dispatch, handleKeyDown, inputDisabled, submitDisabled.
  destruct (bool_decide (key e = lit "Enter")); cbn [andb];
    [| by destruct (isLoading (state p))].
  destruct (isLoading (state p)); [by rewrite orb_true_r |].
  rewrite orb_false_r.
  destruct (shiftKey e); cbn [negb snd fst]; [done |].
  unfold handleSubmit.
  destruct (truthy (trim (query (state p)))); cbn [negb snd fst]; [done |].
  apply render_unchanged.
Qed.

(** What each event does to a page on which a timeout of the animation
    is pending. *)
Lemma dispatch_settled p ev :
  settled prompts (state p) →
  dispatch prompts p ev =
    match ev with
    | Change value =>
        Some (if inputDisabled (state p) then p else handleChange value p)
    | KeyDown e =>
        Some (if bool_decide (key e = lit "Enter")
              then if submitDisabled (state p) then p else (handleSubmit p).1
              else p)
    | SubmitClick =>
        Some (if submitDisabled (state p) then p else (handleSubmit p).1)
    | ToggleClick => Some (toggleWebSearch p)
    | AnimationTimeout => withState p <$> tick prompts (state p)
    | LoadingTimeout =>
        Some (match loadingTimeouts p with
              | [] => p
              | _ :: _ => loadingTimeoutFires p
              end)
    end.
Proof.
  intros Hs.
  assert (dispatch prompts p SubmitClick
          = Some (if submitDisabled (state p) then p else (handleSubmit p).1))
    as Hsubmit.
  { simpl. destruct (submitDisabled _); [done |].
    destruct (handleSubmit_animation p) as (? & ? & ?).
    by apply render_same_animation. }
  destruct ev as [v | e | | | |]; try done.
  - simpl. destruct (inputDisabled _); [done |].
    by apply render_same_animation.
  - rewrite dispatch_KeyDown. by destruct (bool_decide _).
  - simpl. by apply render_same_animation.
  - simpl. destruct (loadingTimeouts p); [done |].
    by apply render_same_animation.
Qed.

Lemma dispatch_page_inv p ev q :
  page_inv prompts p → dispatch prompts p ev = Some q → page_inv prompts q.
Proof.
  intros Hinv. pose proof Hinv as (Hpre & Hset & Hload).
  rewrite dispatch_settled by done.
  destruct ev as [v | e | | | |].
  - intros [= <-]. unfold inputDisabled.
    destruct (isLoading (state p)) eqn:El; [done |].
    repeat split; simpl; [done | done | by rewrite El].
  - intros [= <-]. destruct (bool_decide _); [| done].
    unfold submitDisabled, handleSubmit.
    destruct (isLoading (state p)) eqn:El;
      [by rewrite orb_true_r |].
    destruct (truthy _); simpl; [| done].
    repeat split; simpl; [done | done | by rewrite Hload].
  - intros [= <-]. unfold submitDisabled, handleSubmit.
    destruct (isLoading (state p)) eqn:El;
      [by rewrite orb_true_r |].
    destruct (truthy _); simpl; [| done].
    repeat split; simpl; [done | done | by rewrite Hload].
  - intros [= <-]. by repeat split.
  - destruct (tick prompts (state p)) as [s' |] eqn:Et; [| done].
    intros [= <-]. unfold page_inv, withState. simpl.
    destruct (tick_frame _ _ _ Et) as (_ & Hl & _).
    repeat split; [by eapply tick_prefix_inv | by eapply tick_settled |].
    by rewrite Hl.
  - intros [= <-]. destruct (loadingTimeouts p) as [| d ds] eqn:Ed;
      [done |].
    destruct (isLoading (state p)); [| done].
    injection Hload as -> ->.
    unfold page_inv, loadingTimeoutFires. simpl. rewrite Ed.
    by repeat split.
Qed.

Lemma dispatch_total p ev :
  page_inv prompts p → is_Some (dispatch prompts p ev).
Proof.
  intros (Hpre & Hset & _). rewrite dispatch_settled by done.
  destruct ev; eauto.
  destruct (tick_total prompts _ Hpre) as [s' ->]. simpl. eauto.
Qed.

Lemma run_page_inv evs p q :
  page_inv prompts p → run prompts evs p = Some q → page_inv prompts q.
Proof.
  revert p. induction evs as [| ev evs IH]; intros p Hinv; simpl.
  - by intros [= <-].
  - destruct (dispatch prompts p ev) as [p' |] eqn:Ed; [| done]. simpl.
    apply IH. by eapply dispatch_page_inv.
Qed.

Lemma run_total evs p : page_inv prompts p → is_Some (run prompts evs p).
Proof.
  revert p. induction evs as [| ev evs IH]; intros p Hinv; simpl; [eauto |].
  destruct (dispatch_total p ev Hinv) as [p' Hp']. rewrite Hp'. simpl.
  apply IH. by eapply dispatch_page_inv.
Qed.

Lemma mountPage_initial :
  prompts ≠ [] →
  mountPage prompts = Some {| state := initial; loadingTimeouts := [] |}.
Proof.
  destruct prompts as [| p0 ps] eqn:E; [done |]. intros _.
  unfold mountPage, mount, settle, effect. simpl.
  by destruct (len [] <? len p0).
Qed.

Lemma mountPage_page_inv p :
  prompts ≠ [] → mountPage prompts = Some p → page_inv prompts p.
Proof.
  intros Hne. rewrite mountPage_initial by done. intros [= <-].
  split; [by apply prefix_inv_initial |]. split; [| done].
  apply (settle_settled prompts initial).
  destruct prompts as [| p0 ps] eqn:E; [done |].
  unfold settle, effect. simpl. by destruct (len [] <? len p0).
Qed.

Lemma reachable_page_inv p :
  prompts ≠ [] → reachable prompts p → page_inv prompts p.
Proof.
  intros Hne [evs Hrun].
  destruct (mountPage prompts) as [p0 |] eqn:Em; [| done]. simpl in Hrun.
  eapply run_page_inv; [| done]. by apply mountPage_page_inv.
Qed.

End PageFacts.

(** ** The animation: prefix invariant and an example run *)

Lemma effect_steps_prefix_inv prompts n s :
  prefix_inv prompts s →
  ∃ s', effect_steps prompts n s = Some s' ∧ prefix_inv prompts s'.
Proof.
  revert s. induction n as [| n IH]; intros s Hinv; simpl; [eauto |].
  destruct (effect_step_total prompts s Hinv) as [s1 Hs1]. rewrite Hs1. simpl.
  apply IH. by eapply effect_step_prefix_inv.
Qed.

Lemma ticks_prefix_inv prompts n s :
  prefix_inv prompts s →
  ∃ s', ticks prompts n s = Some s' ∧ prefix_inv prompts s'.
Proof.
  revert s. induction n as [| n IH]; intros s Hinv; simpl; [eauto |].
  destruct (tick_total prompts s Hinv) as [s1 Hs1]. rewrite Hs1. simpl.
  apply IH. by eapply tick_prefix_inv.
Qed.

(** C1: for any non-empty list of prompts, and so for [samplePrompts],
    the displayed text is a prefix of the prompt at the current index, of
    length between 0 and the length of that prompt. This holds in the
    initial state, is kept by every update of the effect and by every
    scheduled step, neither of which throws, and so holds after any number
    of them and on every page the user can reach. *)
Theorem displayedText_prefix_of_prompt (prompts : list jsstring) :
  prompts ≠ [] →
  prefix_inv prompts initial
  ∧ (∀ s, prefix_inv prompts s →
       ∃ s', effect_step prompts s = Some s' ∧ prefix_inv prompts s')
  ∧ (∀ s, prefix_inv prompts s →
       ∃ s', tick prompts s = Some s' ∧ prefix_inv prompts s')
  ∧ (∀ n, ∃ s, effect_steps prompts n initial = Some s ∧ prefix_inv prompts s)
  ∧ (∀ n, ∃ s, ticks prompts n initial = Some s ∧ prefix_inv prompts s)
  ∧ (∀ p, reachable prompts p → prefix_inv prompts (state p)).
Proof.
  intros Hne. pose proof (prefix_inv_initial prompts Hne) as H0.
  split; [done |]. split; [| split; [| split; [| split]]].
  - intros s Hs. destruct (effect_step_total prompts s Hs) as [s' Hs'].
    exists s'. split; [done |]. by eapply effect_step_prefix_inv.
  - intros s Hs. destruct (tick_total prompts s Hs) as [s' Hs'].
    exists s'. split; [done |]. by eapply tick_prefix_inv.
  - intros n. by apply effect_steps_prefix_inv.
  - intros n. by apply ticks_prefix_inv.
  - intros p Hp. by apply (reachable_page_inv prompts p Hne Hp).
Qed.

Lemma displayedText_prefix_of_prompt_samplePrompts :
  samplePrompts ≠ []
  ∧ (∀ n, ∃ s, ticks samplePrompts n initial = Some s
              ∧ prefix_inv samplePrompts s)
  ∧ (∀ p, reachable samplePrompts p → prefix_inv samplePrompts (state p)).
Proof.
  assert (samplePrompts ≠ []) as Hne by done.
  split; [exact Hne |].
  split; apply (displayedText_prefix_of_prompt samplePrompts Hne).
Defined.

(** C2: with the prompts "Hi" and "Yo", from index 0, empty text and the
    growing phase, the scheduled steps show "H", then "Hi" with the phase
    holding, then the phase shrinking with "Hi" still shown, then "H",
    then the empty text with index 1 and the phase growing. *)
Theorem HiYo_steps :
  phase HiYo initial = Some Growing
  ∧ ∃ s1 s2 s3 s4 s5,
      tick HiYo initial = Some s1
      ∧ displayedText s1 = lit "H"
      ∧ tick HiYo s1 = Some s2
      ∧ displayedText s2 = lit "Hi" ∧ phase HiYo s2 = Some Holding
      ∧ tick HiYo s2 = Some s3
      ∧ phase HiYo s3 = Some Shrinking ∧ displayedText s3 = lit "Hi"
      ∧ tick HiYo s3 = Some s4
      ∧ displayedText s4 = lit "H"
      ∧ tick HiYo s4 = Some s5
      ∧ displayedText s5 = lit "" ∧ currentSampleIndex s5 = 1%nat
      ∧ phase HiYo s5 = Some Growing.
Proof.
  split; [done |].
  exists (setDisplayedText (lit "H") initial).
  exists (setDisplayedText (lit "Hi") initial).
  exists (setIsTyping false (setDisplayedText (lit "Hi") initial)).
  exists (setIsTyping false (setDisplayedText (lit "H") initial)).
  exists (setCurrentSampleIndex (λ _, 1%nat) initial).
  repeat split; vm_compute; reflexivity.
Qed.

(** Between the last erasing timeout and the next revealing one the effect
    commits once more without a timeout: the emptied text is committed with
    the old index, and the effect then moves to the next prompt at once. *)
Example HiYo_commits :
  effect_steps HiYo 5 initial
    = Some (setIsTyping false initial)
  ∧ effect_steps HiYo 6 initial
    = Some (setCurrentSampleIndex (λ _, 1%nat) initial)
  ∧ scheduledDelay HiYo (setIsTyping false initial) = None.
Proof. repeat split; vm_compute; reflexivity. Qed.

(** ** The animation writes its own cells only *)

(** C7: an update of the effect, a scheduled step of the animation, and the
    animation timeout dispatched on the page leave [query], [isLoading] and
    [webSearchEnabled] as they were; the last also leaves the pending
    submission timeouts. *)
Theorem animation_frame (prompts : list jsstring) (s s' : State) :
  effect_step prompts s = Some s' ∨ tick prompts s = Some s' →
  query s' = query s ∧ isLoading s' = isLoading s
  ∧ webSearchEnabled s' = webSearchEnabled s
  ∧ ∀ timeouts q,
      dispatch prompts (mkPage s timeouts) AnimationTimeout = Some q →
      query (state q) = query s ∧ isLoading (state q) = isLoading s
      ∧ webSearchEnabled (state q) = webSearchEnabled s
      ∧ loadingTimeouts q = timeouts.
Proof.
  intros H.
  assert (same_form s s') as (Hq & Hl & Hw).
  { destruct H; [by eapply effect_step_frame | by eapply tick_frame]. }
  split; [done |]. split; [done |]. split; [done |].
  intros timeouts q. simpl.
  destruct (tick prompts s) as [s1 |] eqn:Et; [| done]. intros [= <-]. simpl.
  destruct (tick_frame _ _ _ Et) as (? & ? & ?). done.
Qed.

Lemma animation_frame_samplePrompts :
  let s := setQuery (lit "hello") (setDisplayedText (lit "How") initial) in
  let s' := setDisplayedText (lit "How ") s in
  tick samplePrompts s = Some s'
  ∧ query s' = lit "hello" ∧ isLoading s' = false
  ∧ webSearchEnabled s' = false.
Proof.
  intros s s'.
  assert (tick samplePrompts s = Some s') as Ht by reflexivity.
  destruct (animation_frame samplePrompts s s' (or_intror Ht))
    as (Hq & Hl & Hw & _).
  exact (conj Ht (conj Hq (conj Hl Hw))).
Defined.

(** ** The delays *)

(** C9: a state in the shrinking phase that arms a timeout arms it with a
    smaller delay than any state in the growing phase, and a state in the
    holding phase arms it with a larger delay than any state in the
    growing phase; the three delays are 30, 50 and 2000 milliseconds. *)
Theorem erase_faster_than_reveal_shorter_than_hold
    (prompts : list jsstring) (growing : State) (dr : Z) :
  phase prompts growing = Some Growing →
  scheduledDelay prompts growing = Some dr →
  dr = 50
  ∧ (∀ shrinking de,
       phase prompts shrinking = Some Shrinking →
       scheduledDelay prompts shrinking = Some de → de = 30 ∧ de < dr)
  ∧ (∀ holding dh,
       phase prompts holding = Some Holding →
       scheduledDelay prompts holding = Some dh → dh = 2000 ∧ dr < dh).
Proof.
  unfold phase, scheduledDelay, effect.
  intros Hg Hdr.
  assert (dr = 50) as ->.
  { destruct (isTyping growing); [| done].
    destruct (prompts !! currentSampleIndex growing); [| done].
    destruct (_ <? _); [| done]. by injection Hdr as <-. }
  split; [done |]. split.
  - intros s de Hp Hd.
    destruct (isTyping s).
    { destruct (prompts !! currentSampleIndex s); [| done].
      by destruct (_ <? _). }
    destruct (len (displayedText s) >? 0); simpl in Hd; [| done].
    injection Hd as <-. unfold eraseDelay. lia.
  - intros s dh Hp Hd.
    destruct (isTyping s); [| done].
    destruct (prompts !! currentSampleIndex s); [| done].
    destruct (_ <? _); simpl in Hd; [done |]. injection Hd as <-.
    unfold holdDuration. lia.
Qed.

Lemma erase_faster_than_reveal_shorter_than_hold_samplePrompts :
  scheduledDelay samplePrompts initial = Some 50
  ∧ scheduledDelay samplePrompts
      (setIsTyping false (setDisplayedText (lit "How") initial)) = Some 30
  ∧ scheduledDelay samplePrompts
      (setCurrentSampleIndex (λ _, 2%nat)
         (setDisplayedText (lit "Help me troubleshoot high memory usage alerts")
            initial)) = Some 2000
  ∧ 30 < 50 < 2000.
Proof.
  pose proof (erase_faster_than_reveal_shorter_than_hold
                samplePrompts initial 50 eq_refl eq_refl) as (_ & He & Hh).
  pose proof (He (setIsTyping false (setDisplayedText (lit "How") initial))
                30 eq_refl eq_refl) as (_ & Hlt1).
  pose proof (Hh (setCurrentSampleIndex (λ _, 2%nat)
                    (setDisplayedText
                       (lit "Help me troubleshoot high memory usage alerts")
                       initial))
                2000 eq_refl eq_refl) as (_ & Hlt2).
  exact (conj eq_refl (conj eq_refl (conj eq_refl (conj Hlt1 Hlt2)))).
Defined.

(** ** The form: disabled controls, submit and key handlers *)

Lemma submitDisabled_spec (s : State) :
  submitDisabled s = true ↔ trim (query s) = [] ∨ isLoading s = true.
Proof.
  unfold submitDisabled. rewrite orb_true_iff, negb_true_iff, truthy_false.
  done.
Qed.

Lemma handleSubmit_empty (p : Page) :
  trim (query (state p)) = [] → handleSubmit p = (p, true).
Proof. unfold handleSubmit. by intros ->. Qed.

Lemma handleSubmit_nonempty (p : Page) :
  trim (query (state p)) ≠ [] →
  handleSubmit p
  = ({| state := setIsLoading true (state p);
        loadingTimeouts := loadingTimeouts p ++ [loadingDelay] |}, true).
Proof. intros Hq%truthy_true. unfold handleSubmit. by rewrite Hq. Qed.

(** A click on the enabled submit button runs [handleSubmit]. *)
Lemma dispatch_submit_enabled prompts (p : Page) :
  settled prompts (state p) →
  trim (query (state p)) ≠ [] → isLoading (state p) = false →
  dispatch prompts p SubmitClick = Some (handleSubmit p).1.
Proof.
  intros Hs Hq%truthy_true Hl. rewrite dispatch_settled by done.
  unfold submitDisabled. by rewrite Hq, Hl.
Qed.

(** While the page is loading no change, key press or submit click reaches
    a handler. *)
Lemma dispatch_while_loading prompts p :
  isLoading (state p) = true →
  (∀ value, dispatch prompts p (Change value) = Some p)
  ∧ (∀ e, dispatch prompts p (KeyDown e) = Some p)
  ∧ dispatch prompts p SubmitClick = Some p.
Proof.
  intros Hl. unfold dispatch, inputDisabled, submitDisabled. rewrite Hl.
  by rewrite orb_true_r.
Qed.

(** With an empty trimmed query neither the submit click nor an Enter key
    press changes the page. *)
Lemma dispatch_empty_query prompts p :
  trim (query (state p)) = [] →
  (∀ e, key e = lit "Enter" → dispatch prompts p (KeyDown e) = Some p)
  ∧ dispatch prompts p SubmitClick = Some p.
Proof.
  intros Hq.
  assert (dispatch prompts p SubmitClick = Some p) as Hsubmit.
  { unfold dispatch, submitDisabled. by rewrite Hq. }
  split; [| done].
  intros e He. by rewrite dispatch_KeyDown, bool_decide_eq_true_2.
Qed.

(** C10: the submit button is disabled exactly when the trimmed query is
    empty or the page is loading, the input exactly when the page is
    loading; so while the page is loading no edit of the query, key press
    or submit click is delivered, and the page stays as it is. *)
Theorem controls_disabled (prompts : list jsstring) (p : Page) :
  (submitDisabled (state p) = true
     ↔ trim (query (state p)) = [] ∨ isLoading (state p) = true)
  ∧ (inputDisabled (state p) = true ↔ isLoading (state p) = true)
  ∧ (isLoading (state p) = true →
       (∀ value, dispatch prompts p (Change value) = Some p)
       ∧ (∀ e, dispatch prompts p (KeyDown e) = Some p)
       ∧ dispatch prompts p SubmitClick = Some p).
Proof.
  split; [apply submitDisabled_spec |]. split; [done |].
  apply dispatch_while_loading.
Qed.

Lemma controls_disabled_busy :
  submitDisabled (state busy) = true
  ∧ inputDisabled (state busy) = true
  ∧ dispatch samplePrompts busy (Change (lit "other")) = Some busy
  ∧ dispatch samplePrompts busy SubmitClick = Some busy.
Proof.
  destruct (controls_disabled samplePrompts busy) as (_ & _ & H).
  destruct (H eq_refl) as (Hc & _ & Hs).
  exact (conj eq_refl (conj eq_refl (conj (Hc (lit "other")) Hs))).
Defined.

(** C3: a submission is accepted only when the trimmed query is not empty
    and [isLoading] is false. In every other case, an empty or white-space
    query or a page already loading, a click on the submit button or an
    Enter key press is a no-op: it leaves [isLoading], every other cell
    and the pending timeouts as they were. With an empty trimmed query
    [handleSubmit] itself changes nothing; while the page is loading the
    button and the input are disabled, so that no submit is delivered.
    Otherwise the click and the key press are accepted and set
    [isLoading]. *)
Theorem submit_guard (prompts : list jsstring) (p : Page) :
  (trim (query (state p)) = [] ∨ isLoading (state p) = true →
     dispatch prompts p SubmitClick = Some p
     ∧ ∀ e, key e = lit "Enter" → dispatch prompts p (KeyDown e) = Some p)
  ∧ (trim (query (state p)) = [] → handleSubmit p = (p, true))
  ∧ (settled prompts (state p) →
       trim (query (state p)) ≠ [] → isLoading (state p) = false →
       ∃ q, dispatch prompts p SubmitClick = Some q
            ∧ (∀ e, key e = lit "Enter" →
                 dispatch prompts p (KeyDown e) = Some q)
            ∧ state q = setIsLoading true (state p)
            ∧ isLoading (state q) = true
            ∧ q ≠ p).
Proof.
  split; [| split; [apply handleSubmit_empty |]].
  - intros H.
    assert (dispatch prompts p SubmitClick = Some p) as Hsubmit.
    { destruct H as [Hq | Hl].
      - by destruct (dispatch_empty_query prompts p Hq).
      - by destruct (dispatch_while_loading prompts p Hl) as (_ & _ & ?). }
    split; [done |]. intros e He.
    by rewrite dispatch_KeyDown, bool_decide_eq_true_2.
  - intros Hs Hq Hl.
    pose proof (dispatch_submit_enabled prompts p Hs Hq Hl) as Hclick.
    rewrite (handleSubmit_nonempty p Hq) in Hclick. simpl in Hclick.
    eexists. split; [exact Hclick |]. split.
    + intros e He. by rewrite dispatch_KeyDown, bool_decide_eq_true_2.
    + simpl. split; [done |]. split; [done |].
      intros E. apply (f_equal (λ q, isLoading (state q))) in E.
      simpl in E. congruence.
Qed.

Lemma submit_guard_examples :
  dispatch samplePrompts (mkPage (setQuery (lit "  ") initial) []) SubmitClick
    = Some (mkPage (setQuery (lit "  ") initial) [])
  ∧ dispatch samplePrompts busy SubmitClick = Some busy
  ∧ dispatch samplePrompts busy
      (KeyDown (mkKey (lit "Enter") false false false false)) = Some busy
  ∧ (∃ q, dispatch samplePrompts ready SubmitClick = Some q
          ∧ isLoading (state q) = true).
Proof.
  destruct (submit_guard samplePrompts
              (mkPage (setQuery (lit "  ") initial) [])) as (H1 & _).
  destruct (submit_guard samplePrompts busy) as (H2 & _).
  destruct (submit_guard samplePrompts ready) as (_ & _ & H3).
  assert (settled samplePrompts (state ready)) as Hs by (by eexists).
  assert (trim (query (state ready)) ≠ []) as Hq by discriminate.
  destruct (H3 Hs Hq eq_refl) as (q & Hd & _ & _ & Hl & _).
  destruct (H2 (or_intror eq_refl)) as (H2s & H2k).
  split; [exact (proj1 (H1 (or_introl eq_refl))) |].
  split; [exact H2s |].
  split; [exact (H2k (mkKey (lit "Enter") false false false false) eq_refl) |].
  exists q. exact (conj Hd Hl).
Defined.

(** C4, as stated, fails: the handler reads [shiftKey] and no other
    modifier, so Enter with Control held submits. *)
Lemma handleKeyDown_ctrl_enter_submits :
  handleKeyDown ctrlEnter ready = (busy, true)
  ∧ dispatch samplePrompts ready (KeyDown ctrlEnter) = Some busy
  ∧ isLoading (state ready) = false ∧ isLoading (state busy) = true
  ∧ ¬ (∀ (e : KeyboardEvent) (p : Page),
         key e = lit "Enter" →
         shiftKey e || ctrlKey e || altKey e || metaKey e = true →
         handleKeyDown e p = (p, false)).
Proof.
  split; [reflexivity |]. split; [reflexivity |].
  split; [reflexivity |]. split; [reflexivity |].
  intros H. specialize (H ctrlEnter ready eq_refl eq_refl). discriminate H.
Qed.

(** C4, amended: an Enter key press without Shift, whether or not
    Control, Alt or Meta is held, runs [handleSubmit], and on every page
    does what a click on the submit button does. *)
Theorem enter_without_shift_submits
    (prompts : list jsstring) (e : KeyboardEvent) (p : Page) :
  key e = lit "Enter" → shiftKey e = false →
  handleKeyDown e p = handleSubmit p
  ∧ dispatch prompts p (KeyDown e) = dispatch prompts p SubmitClick.
Proof.
  intros Hk Hs. split.
  - unfold handleKeyDown. by rewrite bool_decide_eq_true_2, Hs.
  - by rewrite dispatch_KeyDown, bool_decide_eq_true_2.
Qed.

Lemma enter_without_shift_submits_examples :
  handleKeyDown (mkKey (lit "Enter") false false false false) ready
    = handleSubmit ready
  ∧ dispatch samplePrompts ready
      (KeyDown (mkKey (lit "Enter") false false false false))
    = dispatch samplePrompts ready SubmitClick
  ∧ dispatch samplePrompts ready (KeyDown ctrlEnter)
    = dispatch samplePrompts ready SubmitClick.
Proof.
  destruct (enter_without_shift_submits samplePrompts
              (mkKey (lit "Enter") false false false false) ready
              eq_refl eq_refl) as (H1 & H2).
  destruct (enter_without_shift_submits samplePrompts ctrlEnter ready
              eq_refl eq_refl) as (_ & H3).
  exact (conj H1 (conj H2 H3)).
Defined.

(** ** The simulated request *)

(** While the page is loading, nothing but the submission timeout changes
    [isLoading], the query or the pending submission timeout. *)
Lemma loading_window prompts evs p :
  page_inv prompts p → isLoading (state p) = true → LoadingTimeout ∉ evs →
  ∃ q, run prompts evs p = Some q
       ∧ page_inv prompts q
       ∧ isLoading (state q) = true
       ∧ query (state q) = query (state p)
       ∧ loadingTimeouts q = [loadingDelay].
Proof.
  revert p. induction evs as [| ev evs IH]; intros p Hinv Hl Hnot; simpl.
  - exists p. pose proof Hinv as (? & ? & Hload). rewrite Hl in Hload. done.
  - apply not_elem_of_cons in Hnot as [Hev Hnot].
    destruct (dispatch_total prompts p ev Hinv) as [p1 Hp1].
    pose proof (dispatch_page_inv prompts p ev p1 Hinv Hp1) as Hinv1.
    rewrite Hp1. simpl.
    assert (isLoading (state p1) = true ∧ query (state p1) = query (state p))
      as [Hl1 Hq1].
    { destruct Hinv as (_ & Hs & _). rewrite dispatch_settled in Hp1 by done.
      destruct ev as [v | e | | | |]; try done.
      - unfold inputDisabled in Hp1. rewrite Hl in Hp1. by injection Hp1 as <-.
      - unfold submitDisabled in Hp1. rewrite Hl, orb_true_r in Hp1.
        destruct (bool_decide _); by injection Hp1 as <-.
      - unfold submitDisabled in Hp1. rewrite Hl, orb_true_r in Hp1.
        by injection Hp1 as <-.
      - by injection Hp1 as <-.
      - destruct (tick prompts (state p)) as [s' |] eqn:Et; [| done].
        injection Hp1 as <-. unfold withState. simpl.
        destruct (tick_frame _ _ _ Et) as (Hq' & Hl' & _).
        split; [by rewrite Hl' | done]. }
    destruct (IH p1 Hinv1 Hl1 Hnot) as (q & Hq & Hinvq & Hlq & Hqq & Htq).
    exists q. rewrite Hqq, Hq1. done.
Qed.

(** C5: on a page the user can reach, with a non-empty trimmed query and
    [isLoading] false, the submit sets [isLoading] to true, changes no
    other cell, and arms one timeout of 3000 ms. Until that timeout fires,
    whatever else happens on the page, [isLoading] stays true, the query
    stays the same and the timeout stays pending; when it fires it sets
    [isLoading] to false and changes nothing else. *)
Theorem submit_loads_for_3000ms (prompts : list jsstring) (p : Page) :
  prompts ≠ [] → reachable prompts p →
  trim (query (state p)) ≠ [] → isLoading (state p) = false →
  ∃ p',
    handleSubmit p = (p', true)
    ∧ dispatch prompts p SubmitClick = Some p'
    ∧ state p' = setIsLoading true (state p)
    ∧ loadingTimeouts p' = [3000]
    ∧ ∀ evs, LoadingTimeout ∉ evs →
        ∃ q, run prompts evs p' = Some q
             ∧ isLoading (state q) = true
             ∧ query (state q) = query (state p)
             ∧ loadingTimeouts q = [3000]
             ∧ dispatch prompts q LoadingTimeout
               = Some {| state := setIsLoading false (state q);
                         loadingTimeouts := [] |}.
Proof.
  intros Hne Hreach Hq Hl.
  pose proof (reachable_page_inv prompts p Hne Hreach) as Hinv.
  pose proof Hinv as (Hpre & Hset & Hload). rewrite Hl in Hload.
  pose proof (handleSubmit_nonempty p Hq) as Hsub.
  pose proof (dispatch_submit_enabled prompts p Hset Hq Hl) as Hclick.
  rewrite Hsub in Hclick. rewrite Hload in Hsub, Hclick. simpl in Hsub, Hclick.
  exists {| state := setIsLoading true (state p);
            loadingTimeouts := [loadingDelay] |}.
  split; [exact Hsub |]. split; [exact Hclick |].
  split; [done |]. split; [done |].
  intros evs Hevs.
  pose proof (dispatch_page_inv prompts p SubmitClick _ Hinv Hclick) as Hinv'.
  destruct (loading_window prompts evs _ Hinv' eq_refl Hevs)
    as (q & Hrun & Hinvq & Hlq & Hqq & Htq).
  exists q. split; [done |]. split; [done |]. split; [done |]. split; [done |].
  destruct Hinvq as (_ & Hsq & _). rewrite dispatch_settled by done.
  rewrite Htq. unfold loadingTimeoutFires. by rewrite Htq.
Qed.

Lemma submit_loads_for_3000ms_ready :
  handleSubmit ready = (busy, true)
  ∧ run samplePrompts [AnimationTimeout; ToggleClick; SubmitClick; LoadingTimeout]
      busy
    = Some {| state := setWebSearchEnabled true
                         (setDisplayedText (lit "H")
                            (setQuery (lit "hello") initial));
              loadingTimeouts := [] |}.
Proof.
  assert (samplePrompts ≠ []) as Hne by done.
  assert (reachable samplePrompts ready) as Hr
    by (by exists [Change (lit "hello")]).
  assert (trim (query (state ready)) ≠ []) as Hq by discriminate.
  destruct (submit_loads_for_3000ms samplePrompts ready Hne Hr Hq eq_refl)
    as (p' & Hs & _).
  split; [| reflexivity].
  rewrite Hs. f_equal. by injection Hs as <-.
Defined.

(** ** The web-search flag *)

Section WebSearch.

Variable prompts : list jsstring.
Variable b : bool.

Lemma setWebSearchEnabled_inj s s' :
  webSearchEnabled s = webSearchEnabled s' →
  setWebSearchEnabled b s = setWebSearchEnabled b s' → s = s'.
Proof. destruct s, s'. simpl. intros -> [=]. by subst. Qed.

Lemma effect_webSearch s :
  effect prompts (setWebSearchEnabled b s) = effect prompts s.
Proof. by apply effect_ext. Qed.

Lemma effect_step_webSearch s :
  effect_step prompts (setWebSearchEnabled b s)
  = setWebSearchEnabled b <$> effect_step prompts s.
Proof.
  unfold effect_step. rewrite effect_webSearch.
  by destruct (effect_cases prompts s).
Qed.

Lemma settle_webSearch s :
  settle prompts (setWebSearchEnabled b s)
  = setWebSearchEnabled b <$> settle prompts s.
Proof.
  unfold settle. rewrite effect_webSearch.
  destruct (effect_cases prompts s); try done.
  change (nextSample prompts (setWebSearchEnabled b s))
    with (setWebSearchEnabled b (nextSample prompts s)).
  rewrite effect_webSearch. by destruct (effect prompts _).
Qed.

Lemma commit_webSearch s0 s :
  webSearchEnabled s0 = webSearchEnabled s →
  commit prompts (setWebSearchEnabled b s0) (setWebSearchEnabled b s)
  = setWebSearchEnabled b <$> commit prompts s0 s.
Proof.
  intros Hw. unfold commit. destruct (decide (s0 = s)) as [-> | Hne].
  - by rewrite decide_True.
  - rewrite decide_False; [apply settle_webSearch |].
    intros E. by apply Hne, setWebSearchEnabled_inj.
Qed.

Lemma tick_webSearch s :
  tick prompts (setWebSearchEnabled b s)
  = setWebSearchEnabled b <$> tick prompts s.
Proof.
  unfold tick. rewrite effect_webSearch.
  destruct (effect_cases prompts s) as [q ? ? ? | q ? ? ? | | |]; try done.
  - exact (commit_webSearch s
             (setDisplayedText (take (S (length (displayedText s))) q) s)
             eq_refl).
  - exact (commit_webSearch s (setIsTyping false s) eq_refl).
  - exact (commit_webSearch s
             (setDisplayedText
                (take (length (displayedText s) - 1) (displayedText s)) s)
             eq_refl).
Qed.

Lemma render_webSearch p p' :
  webSearchEnabled (state p) = webSearchEnabled (state p') →
  render prompts (withWebSearch b p) (withWebSearch b p')
  = withWebSearch b <$> render prompts p p'.
Proof.
  intros Hw. unfold render. simpl. rewrite commit_webSearch by done.
  by destruct (commit prompts (state p) (state p')).
Qed.

Lemma handleSubmit_webSearch p :
  handleSubmit (withWebSearch b p)
  = (withWebSearch b (handleSubmit p).1, (handleSubmit p).2).
Proof. unfold handleSubmit. simpl. by destruct (truthy _). Qed.

Lemma handleKeyDown_webSearch e p :
  handleKeyDown e (withWebSearch b p)
  = (withWebSearch b (handleKeyDown e p).1, (handleKeyDown e p).2).
Proof.
  unfold handleKeyDown. destruct (_ && _); [| done].
  apply handleSubmit_webSearch.
Qed.

Lemma handleSubmit_keeps_webSearch p :
  webSearchEnabled (state (handleSubmit p).1) = webSearchEnabled (state p).
Proof. unfold handleSubmit. simpl. by destruct (truthy _). Qed.

Lemma handleKeyDown_keeps_webSearch e p :
  webSearchEnabled (state (handleKeyDown e p).1)
  = webSearchEnabled (state p).
Proof.
  unfold handleKeyDown. destruct (_ && _); [| done].
  apply handleSubmit_keeps_webSearch.
Qed.

(** No event but the toggle reads the flag. *)
Lemma dispatch_webSearch p ev :
  ev ≠ ToggleClick →
  dispatch prompts (withWebSearch b p) ev
  = withWebSearch b <$> dispatch prompts p ev.
Proof.
  intros Hev. destruct ev as [v | e | | | |]; [| | | done | |].
  - unfold dispatch. change (inputDisabled (state (withWebSearch b p)))
      with (inputDisabled (state p)).
    destruct (inputDisabled _); [done |].
    by apply (render_webSearch p (handleChange v p)).
  - rewrite !dispatch_KeyDown. destruct (bool_decide _); [| done].
  unfold dispatch. change (submitDisabled (state (withWebSearch b p)))
    with (submitDisabled (state p)).
  destruct (submitDisabled _); [done |].
  rewrite handleSubmit_webSearch. cbn [fst].
  apply render_webSearch. by rewrite handleSubmit_keeps_webSearch.
  - unfold dispatch. change (submitDisabled (state (withWebSearch b p)))
      with (submitDisabled (state p)).
    destruct (submitDisabled _); [done |].
    rewrite handleSubmit_webSearch. cbn [fst].
    apply render_webSearch. by rewrite handleSubmit_keeps_webSearch.
  - unfold dispatch. change (state (withWebSearch b p))
      with (setWebSearchEnabled b (state p)).
    rewrite tick_webSearch. by destruct (tick prompts (state p)).
  - unfold dispatch. change (loadingTimeouts (withWebSearch b p))
      with (loadingTimeouts p).
    destruct (loadingTimeouts p) eqn:E; [done |].
    assert (loadingTimeoutFires (withWebSearch b p)
            = withWebSearch b (loadingTimeoutFires p)) as -> by done.
    by apply render_webSearch.
Qed.

End WebSearch.

(** C8: the toggle writes [webSearchEnabled], negated, and no other cell
    and no pending timeout; the disabled attributes, the submit and key
    handlers, the updates and scheduled steps of the animation, and the
    dispatch of every event but the toggle do the same on a page whatever
    the value of the flag, and return the flag as they found it. *)
Theorem webSearch_flag_is_inert
    (prompts : list jsstring) (b : bool) (p : Page) (ev : Event) :
  ev ≠ ToggleClick →
  toggleWebSearch p
  = {| state := {| query := query (state p);
                   isLoading := isLoading (state p);
                   webSearchEnabled := negb (webSearchEnabled (state p));
                   currentSampleIndex := currentSampleIndex (state p);
                   displayedText := displayedText (state p);
                   isTyping := isTyping (state p) |};
       loadingTimeouts := loadingTimeouts p |}
  ∧ (settled prompts (state p) →
       dispatch prompts p ToggleClick = Some (toggleWebSearch p))
  ∧ inputDisabled (state (withWebSearch b p)) = inputDisabled (state p)
  ∧ submitDisabled (state (withWebSearch b p)) = submitDisabled (state p)
  ∧ handleSubmit (withWebSearch b p)
    = (withWebSearch b (handleSubmit p).1, (handleSubmit p).2)
  ∧ (∀ e, handleKeyDown e (withWebSearch b p)
          = (withWebSearch b (handleKeyDown e p).1, (handleKeyDown e p).2))
  ∧ effect_step prompts (setWebSearchEnabled b (state p))
    = setWebSearchEnabled b <$> effect_step prompts (state p)
  ∧ tick prompts (setWebSearchEnabled b (state p))
    = setWebSearchEnabled b <$> tick prompts (state p)
  ∧ dispatch prompts (withWebSearch b p) ev
    = withWebSearch b <$> dispatch prompts p ev.
Proof.
  intros Hev. split; [done |].
  split; [intros Hs; by rewrite dispatch_settled |].
  split; [done |]. split; [done |].
  split; [apply handleSubmit_webSearch |].
  split; [intros e; apply handleKeyDown_webSearch |].
  split; [apply effect_step_webSearch |].
  split; [apply tick_webSearch |].
  by apply dispatch_webSearch.
Qed.

Lemma webSearch_flag_is_inert_ready :
  dispatch samplePrompts ready ToggleClick
    = Some (withWebSearch true ready)
  ∧ dispatch samplePrompts (withWebSearch true ready) SubmitClick
    = Some (withWebSearch true busy).
Proof.
  assert (SubmitClick ≠ ToggleClick) as Hne by discriminate.
  assert (settled samplePrompts (state ready)) as Hs by (by eexists).
  destruct (webSearch_flag_is_inert samplePrompts true ready SubmitClick Hne)
    as (_ & Ht & _ & _ & _ & _ & _ & _ & Hd).
  exact (conj (Ht Hs) Hd).
Defined.

(** ** The cycle through the prompts *)

Section Cycle.

Variable prompts : list jsstring.
Implicit Types s base : State.

Lemma settled_typing s :
  isTyping s = true → is_Some (prompts !! currentSampleIndex s) →
  settled prompts s.
Proof.
  intros Ht [p Hp]. unfold settled, scheduledDelay, effect.
  rewrite Ht, Hp. destruct (_ <? _); eauto.
Qed.

Lemma settled_erasing s :
  isTyping s = false → displayedText s ≠ [] → settled prompts s.
Proof.
  intros Ht Hd. unfold settled, scheduledDelay.
  destruct (effect_cases prompts s); try congruence; eauto.
Qed.

Lemma settle_next s :
  isTyping s = false → displayedText s = [] →
  (currentSampleIndex s < length prompts)%nat →
  settle prompts s = Some (nextSample prompts s).
Proof.
  intros Ht Hd Hi. unfold settle.
  destruct (effect_cases prompts s); try congruence.
  assert (settled prompts (nextSample prompts s)) as [d Hs].
  { apply settled_typing; [done |]. apply lookup_lt_is_Some_2. simpl.
    apply Nat.mod_upper_bound. lia. }
  unfold scheduledDelay in Hs.
  by destruct (effect prompts (nextSample prompts s)).
Qed.

Lemma take_nonempty (d : jsstring) k :
  (0 < k)%nat → (0 < length d)%nat → take k d ≠ [].
Proof. destruct k, d; simpl; intros; [lia | lia | lia | done]. Qed.

(** The five kinds of scheduled step. *)
Lemma tick_reveal base i p k :
  prompts !! i = Some p → (k < length p)%nat →
  tick prompts (anim base i (take k p) true)
  = Some (anim base i (take (S k) p) true).
Proof.
  intros Hp Hk. unfold tick.
  destruct (effect_cases prompts (anim base i (take k p) true))
    as [q Ht Hq Hl | q Ht Hq Hl | Ht Hq | Ht Hd | Ht Hd];
    simpl in *; simplify_eq.
  - rewrite length_take, Nat.min_l by lia. unfold commit.
    rewrite decide_False.
    + apply settle_of_settled, settled_typing; [done |]. simpl. eauto.
    + intros E. apply (f_equal (λ s, length (displayedText s))) in E.
      simpl in E. rewrite !length_take in E. lia.
  - rewrite length_take in Hl. lia.
Qed.

Lemma tick_hold base i p :
  prompts !! i = Some p → p ≠ [] →
  tick prompts (anim base i p true) = Some (anim base i p false).
Proof.
  intros Hp Hne. unfold tick.
  destruct (effect_cases prompts (anim base i p true))
    as [q Ht Hq Hl | q Ht Hq Hl | Ht Hq | Ht Hd | Ht Hd];
    simpl in *; simplify_eq; [lia |].
  unfold commit. rewrite decide_False by discriminate.
  by apply settle_of_settled, settled_erasing.
Qed.

Lemma tick_hold_empty base i :
  prompts !! i = Some [] →
  tick prompts (anim base i [] true)
  = Some (anim base ((i + 1) `mod` length prompts) [] true).
Proof.
  intros Hp. unfold tick.
  destruct (effect_cases prompts (anim base i [] true))
    as [q Ht Hq Hl | q Ht Hq Hl | Ht Hq | Ht Hd | Ht Hd];
    simpl in *; simplify_eq; [simpl in Hl; lia |].
  unfold commit. rewrite decide_False by discriminate.
  rewrite settle_next; [done | done | done |].
  simpl. by eapply lookup_lt_Some.
Qed.

Lemma tick_erase base i p k :
  (1 ≤ k)%nat → (S k ≤ length p)%nat →
  tick prompts (anim base i (take (S k) p) false)
  = Some (anim base i (take k p) false).
Proof.
  intros Hk Hl. unfold tick.
  assert (take (S k) p ≠ []) as Hne by (apply take_nonempty; lia).
  destruct (effect_cases prompts (anim base i (take (S k) p) false))
    as [q Ht Hq Hl' | q Ht Hq Hl' | Ht Hq | Ht Hd | Ht Hd];
    simpl in *; simplify_eq.
  rewrite length_take, Nat.min_l by lia.
  rewrite take_take, Nat.min_l by lia.
  replace (S k - 1)%nat with k by lia.
  unfold commit. rewrite decide_False.
  - apply settle_of_settled, settled_erasing; [done |]. simpl.
    apply take_nonempty; lia.
  - intros E. apply (f_equal (λ s, length (displayedText s))) in E.
    simpl in E. rewrite !length_take in E. lia.
Qed.

Lemma tick_erase_last base i p :
  (i < length prompts)%nat → p ≠ [] →
  tick prompts (anim base i (take 1 p) false)
  = Some (anim base ((i + 1) `mod` length prompts) [] true).
Proof.
  intros Hi Hp. unfold tick.
  destruct p as [| c p']; [done |]. simpl.
  destruct (effect_cases prompts (anim base i [c] false))
    as [q Ht Hq Hl' | q Ht Hq Hl' | Ht Hq | Ht Hd | Ht Hd];
    simpl in *; simplify_eq.
  unfold commit. rewrite decide_False by discriminate.
  by rewrite settle_next.
Qed.

(** One scheduled step inside a cycle, and the step that ends it. *)
Lemma tick_cycleState base i p j :
  prompts !! i = Some p → (j < 2 * length p)%nat →
  tick prompts (cycleState base i p j) = Some (cycleState base i p (S j)).
Proof.
  intros Hp Hj. unfold cycleState.
  destruct (Nat.leb_spec j (length p)) as [Hle | Hgt].
  - destruct (Nat.leb_spec (S j) (length p)) as [Hle' | Hgt'].
    + by apply tick_reveal.
    + assert (j = length p) as -> by lia.
      replace (2 * length p + 1 - S (length p))%nat with (length p) by lia.
      rewrite firstn_all. apply tick_hold; [done |].
      intros ->. simpl in Hj. lia.
  - rewrite (proj2 (Nat.leb_gt (S j) (length p))) by lia.
    replace (2 * length p + 1 - j)%nat
      with (S (2 * length p + 1 - S j)) by lia.
    apply tick_erase; lia.
Qed.

Lemma tick_cycleState_last base i p :
  prompts !! i = Some p →
  tick prompts (cycleState base i p (2 * length p))
  = Some (anim base ((i + 1) `mod` length prompts) [] true).
Proof.
  intros Hp. unfold cycleState.
  destruct (Nat.leb_spec (2 * length p) (length p)) as [Hle | Hgt].
  - assert (p = []) as -> by (apply length_zero_iff_nil; lia).
    by apply tick_hold_empty.
  - replace (2 * length p + 1 - 2 * length p)%nat with 1%nat by lia.
    apply tick_erase_last; [by eapply lookup_lt_Some |].
    intros ->. simpl in Hgt. lia.
Qed.

Lemma ticks_add a c s :
  ticks prompts (a + c) s = ticks prompts a s ≫= ticks prompts c.
Proof.
  revert s. induction a as [| a IH]; intros s; simpl; [done |].
  destruct (tick prompts s) as [s1 |]; simpl; [apply IH | done].
Qed.

Lemma ticks_S_r a s :
  ticks prompts (S a) s = ticks prompts a s ≫= tick prompts.
Proof.
  replace (S a) with (a + 1)%nat by lia. rewrite ticks_add.
  destruct (ticks prompts a s) as [s1 |]; simpl; [| done].
  by destruct (tick prompts s1).
Qed.

(** A whole cycle, step by step. *)
Lemma ticks_cycleState base i p j :
  prompts !! i = Some p → (j ≤ 2 * length p)%nat →
  ticks prompts j (anim base i [] true) = Some (cycleState base i p j).
Proof.
  intros Hp. induction j as [| j IH]; intros Hj.
  - unfold cycleState. simpl. by rewrite take_0.
  - rewrite ticks_S_r, IH by lia. simpl. apply tick_cycleState; [done | lia].
Qed.

Lemma ticks_cycle base i p :
  prompts !! i = Some p →
  ticks prompts (2 * length p + 1) (anim base i [] true)
  = Some (anim base ((i + 1) `mod` length prompts) [] true).
Proof.
  intros Hp. replace (2 * length p + 1)%nat with (S (2 * length p)) by lia.
  rewrite ticks_S_r, (ticks_cycleState base i p) by done. simpl.
  by apply tick_cycleState_last.
Qed.

Hypothesis nonempty : prompts ≠ [].

Lemma length_prompts_pos : (0 < length prompts)%nat.
Proof. destruct prompts; [done | simpl; lia]. Qed.

Lemma lookup_mod k : is_Some (prompts !! (k `mod` length prompts)%nat).
Proof.
  apply lookup_lt_is_Some_2, Nat.mod_upper_bound.
  pose proof length_prompts_pos. lia.
Qed.

Lemma cycleLength_pos k : (0 < cycleLength prompts k)%nat.
Proof.
  unfold cycleLength. destruct (lookup_mod k) as [p ->]. lia.
Qed.

(** The [k]-th cycle starts with an empty text at index [k mod n]. *)
Lemma ticks_cycleStart k :
  ticks prompts (cycleStart prompts k) initial
  = Some (anim initial (k `mod` length prompts) [] true).
Proof.
  induction k as [| k IH]; simpl.
  - rewrite Nat.Div0.mod_0_l. done.
  - rewrite ticks_add, IH. simpl. unfold cycleLength.
    destruct (lookup_mod k) as [p Hp]. rewrite Hp.
    rewrite (ticks_cycle initial _ p Hp).
    rewrite Nat.Div0.add_mod_idemp_l. do 3 f_equal. lia.
Qed.

Lemma ticks_in_cycle k j :
  (j < cycleLength prompts k)%nat →
  ∃ p, prompts !! (k `mod` length prompts)%nat = Some p
       ∧ ticks prompts (cycleStart prompts k + j) initial
         = Some (cycleState initial (k `mod` length prompts) p j).
Proof.
  unfold cycleLength. destruct (lookup_mod k) as [p Hp]. rewrite Hp.
  intros Hj. exists p. split; [done |].
  rewrite ticks_add, ticks_cycleStart. simpl.
  apply ticks_cycleState; [done | lia].
Qed.

(** Every moment lies in exactly one cycle. *)
Lemma cycle_of_time m :
  ∃ k j, (j < cycleLength prompts k)%nat
         ∧ m = (cycleStart prompts k + j)%nat.
Proof.
  induction m as [| m (k & j & Hj & ->)].
  - exists 0%nat, 0%nat. split; [apply cycleLength_pos | done].
  - destruct (decide (S j < cycleLength prompts k)%nat) as [Hlt | Hge].
    + exists k, (S j). split; [done | lia].
    + exists (S k), 0%nat. split; [apply cycleLength_pos |]. simpl. lia.
Qed.

Lemma currentSampleIndex_cycleState base i p j :
  currentSampleIndex (cycleState base i p j) = i.
Proof. unfold cycleState. by destruct (_ <=? _)%nat. Qed.

End Cycle.

(** The index changes by one update only, to the next index modulo the
    number of prompts. *)
Lemma effect_step_index prompts s s' :
  effect_step prompts s = Some s' →
  currentSampleIndex s' = currentSampleIndex s
  ∨ currentSampleIndex s'
    = ((currentSampleIndex s + 1) `mod` length prompts)%nat.
Proof.
  unfold effect_step.
  destruct (effect_cases prompts s); intros [= <-]; simpl; eauto.
Qed.

Lemma settle_index prompts s s' :
  settle prompts s = Some s' →
  currentSampleIndex s' = currentSampleIndex s
  ∨ currentSampleIndex s'
    = ((currentSampleIndex s + 1) `mod` length prompts)%nat.
Proof.
  unfold settle.
  destruct (effect prompts s) as [d cb | u |] eqn:E; [| | done].
  - intros [= <-]. by left.
  - intros H. apply effect_step_index. unfold effect_step. rewrite E.
    destruct (effect prompts (u s)); congruence.
Qed.

Lemma tick_index prompts s s' :
  tick prompts s = Some s' →
  currentSampleIndex s' = currentSampleIndex s
  ∨ currentSampleIndex s'
    = ((currentSampleIndex s + 1) `mod` length prompts)%nat.
Proof.
  unfold tick, commit.
  destruct (effect prompts s) as [d cb | u |] eqn:E; [| | done].
  - assert (currentSampleIndex (cb s) = currentSampleIndex s) as Hcb.
    { pose proof (effect_cases prompts s) as Hc. rewrite E in Hc.
      by inversion Hc. }
    case_decide.
    + intros [= <-]. by left.
    + intros H'%settle_index. by rewrite Hcb in H'.
  - intros [= <-]. by left.
Qed.

(** C6: for a non-empty list of [n] prompts, an update of the effect or a
    scheduled step either keeps the index or sets it to the index plus one
    modulo [n]; the animation never throws and the index stays below [n];
    and the prompts are visited in order for ever: the time splits into
    consecutive non-empty cycles, and throughout the [k]-th cycle the index
    is [k mod n], so that it wraps from [n - 1] to 0. *)
Theorem currentSampleIndex_cycles (prompts : list jsstring) :
  prompts ≠ [] →
  (∀ s s', effect_step prompts s = Some s' ∨ tick prompts s = Some s' →
     currentSampleIndex s' = currentSampleIndex s
     ∨ currentSampleIndex s'
       = ((currentSampleIndex s + 1) `mod` length prompts)%nat)
  ∧ (∀ m, ∃ s, ticks prompts m initial = Some s
               ∧ (currentSampleIndex s < length prompts)%nat)
  ∧ (∀ k j, (j < cycleLength prompts k)%nat →
       ∃ s, ticks prompts (cycleStart prompts k + j) initial = Some s
            ∧ currentSampleIndex s = (k `mod` length prompts)%nat)
  ∧ (∀ k, (cycleStart prompts k < cycleStart prompts (S k))%nat)
  ∧ (∀ m, ∃ k j, (j < cycleLength prompts k)%nat
                 ∧ m = (cycleStart prompts k + j)%nat).
Proof.
  intros Hne. split; [| split; [| split; [| split]]].
  - intros s s' [H | H]; [by eapply effect_step_index | by eapply tick_index].
  - intros m.
    destruct (ticks_prefix_inv prompts m initial
                (prefix_inv_initial prompts Hne)) as (s & Hs & Hinv).
    exists s. split; [done |]. by apply prefix_inv_lookup.
  - intros k j Hj.
    destruct (ticks_in_cycle prompts Hne k j Hj) as (p & _ & Ht).
    eexists. split; [exact Ht |]. apply currentSampleIndex_cycleState.
  - intros k. simpl. pose proof (cycleLength_pos prompts Hne k). lia.
  - apply cycle_of_time. done.
Qed.

Lemma currentSampleIndex_cycles_samplePrompts :
  (∃ s, ticks samplePrompts (cycleStart samplePrompts 3) initial = Some s
        ∧ currentSampleIndex s = 0%nat)
  ∧ (∃ s, ticks samplePrompts (cycleStart samplePrompts 2 + 5) initial = Some s
          ∧ currentSampleIndex s = 2%nat).
Proof.
  assert (samplePrompts ≠ []) as Hne by done.
  destruct (currentSampleIndex_cycles samplePrompts Hne) as (_ & _ & H & _).
  assert (0 < cycleLength samplePrompts 3)%nat as H0 by (vm_compute; lia).
  assert (5 < cycleLength samplePrompts 2)%nat as H5 by (vm_compute; lia).
  pose proof (H 3%nat 0%nat H0) as H3. rewrite Nat.add_0_r in H3.
  exact (conj H3 (H 2%nat 5%nat H5)).
Defined.

(** * Further properties of the page *)

(** ** Errors of the effect *)

(** X1: the effect throws exactly when it is in the typing branch and there
    is no prompt at the current index; so with an empty list of prompts the
    component throws when it mounts, and with a non-empty list it mounts in
    the initial state. *)
Theorem effect_throws_iff (prompts : list jsstring) (s : State) :
  (effect prompts s = TypeError
     ↔ isTyping s = true ∧ (length prompts ≤ currentSampleIndex s)%nat)
  ∧ (effect_step prompts s = None ↔ effect prompts s = TypeError)
  ∧ (prompts = [] → mountPage prompts = None)
  ∧ (prompts ≠ [] →
       mountPage prompts = Some {| state := initial; loadingTimeouts := [] |}).
Proof.
  split; [| split; [| split]].
  - split.
    + intros E. pose proof (effect_cases prompts s) as Hc. rewrite E in Hc.
      inversion Hc as [| | Ht Hp | |]. split; [done |].
      by apply lookup_ge_None.
    + intros [Ht Hi]. unfold effect. rewrite Ht.
      by rewrite (proj2 (lookup_ge_None prompts _) Hi).
  - unfold effect_step. by destruct (effect prompts s).
  - by intros ->.
  - apply mountPage_initial.
Qed.

Lemma effect_throws_iff_examples :
  mountPage [] = None
  ∧ mountPage samplePrompts
    = Some {| state := initial; loadingTimeouts := [] |}.
Proof.
  destruct (effect_throws_iff [] initial) as (_ & _ & H1 & _).
  destruct (effect_throws_iff samplePrompts initial) as (_ & _ & _ & H2).
  assert (samplePrompts ≠ []) as Hne by done.
  exact (conj (H1 eq_refl) (H2 Hne)).
Defined.

(** X2: with a non-empty list of prompts nothing throws: every sequence of
    events, from the mounted page, runs to a page, and on that page a
    timeout of the animation is pending, with a delay of 30, 50 or 2000 ms;
    the state with empty text and the typing flag off is never what a
    handler finds. *)
Theorem page_never_throws_animation_never_stops
    (prompts : list jsstring) (evs : list Event) :
  prompts ≠ [] →
  ∃ p, mountPage prompts ≫= run prompts evs = Some p
       ∧ (∃ d, scheduledDelay prompts (state p) = Some d
               ∧ (d = 30 ∨ d = 50 ∨ d = 2000))
       ∧ ¬ (isTyping (state p) = false ∧ displayedText (state p) = []).
Proof.
  intros Hne. rewrite mountPage_initial by done. simpl.
  assert (page_inv prompts {| state := initial; loadingTimeouts := [] |})
    as Hinv0.
  { apply mountPage_page_inv; [done |]. by apply mountPage_initial. }
  destruct (run_total prompts evs _ Hinv0) as [p Hp].
  exists p. split; [done |].
  destruct (run_page_inv prompts evs _ p Hinv0 Hp) as (_ & [d Hd] & _).
  split.
  - exists d. split; [done |]. unfold scheduledDelay in Hd.
    destruct (effect_cases prompts (state p)); simplify_eq;
      unfold revealDelay, holdDuration, eraseDelay; auto.
  - intros [Ht He]. unfold scheduledDelay in Hd.
    destruct (effect_cases prompts (state p)); simplify_eq; congruence.
Qed.

Lemma page_never_throws_samplePrompts :
  ∃ p, mountPage samplePrompts
         ≫= run samplePrompts
              [Change (lit "cpu"); AnimationTimeout; SubmitClick; ToggleClick]
       = Some p
       ∧ (∃ d, scheduledDelay samplePrompts (state p) = Some d
               ∧ (d = 30 ∨ d = 50 ∨ d = 2000))
       ∧ ¬ (isTyping (state p) = false ∧ displayedText (state p) = []).
Proof.
  assert (samplePrompts ≠ []) as Hne by done.
  exact (page_never_throws_animation_never_stops samplePrompts
           [Change (lit "cpu"); AnimationTimeout; SubmitClick; ToggleClick]
           Hne).
Defined.

(** ** The shape of one update *)

(** X3: when the text is a prefix of the prompt, a revealing update appends
    exactly the next code unit of the prompt, an erasing update removes
    exactly the last code unit shown, and the holding update and the move
    to the next prompt leave the text as it is. *)
Theorem effect_step_one_code_unit
    (prompts : list jsstring) (s s' : State) :
  prefix_inv prompts s → effect_step prompts s = Some s' →
  match phase prompts s with
  | Some Growing =>
      ∃ p c, prompts !! currentSampleIndex s = Some p
             ∧ p !! length (displayedText s) = Some c
             ∧ displayedText s' = displayedText s ++ [c]
             ∧ isTyping s' = true
  | Some Holding => displayedText s' = displayedText s ∧ isTyping s' = false
  | Some Shrinking =>
      (∃ c, displayedText s = displayedText s' ++ [c] ∧ isTyping s' = false)
      ∨ (displayedText s = [] ∧ displayedText s' = [] ∧ isTyping s' = true)
  | None => False
  end.
Proof.
  intros (p & Hp & [rest Hrest] & Hlen) Hstep.
  unfold effect_step in Hstep. unfold phase.
  destruct (effect_cases prompts s) as [q Ht Hq Hl | q Ht Hq Hl | Ht Hq | Ht Hd | Ht Hd];
    simplify_eq; rewrite Ht; simpl.
  - rewrite Hp. rewrite (proj2 (Z.ltb_lt _ _)) by (unfold len; lia).
    destruct rest as [| c rest].
    { rewrite app_nil_r in Hl. lia. }
    exists (displayedText s ++ c :: rest), c. split; [done |].
    split; [by rewrite list_lookup_middle |].
    split; [| done].
    rewrite (cons_middle c), app_assoc. apply take_app_length'.
    rewrite length_app. simpl. lia.
  - rewrite Hp. rewrite (proj2 (Z.ltb_ge _ _)) by (unfold len; lia). done.
  - left. destruct (displayedText s) as [| c d] eqn:Ed using rev_ind; [done |].
    exists c. split; [| done]. rewrite length_app. simpl.
    replace (length d + 1 - 1)%nat with (length d) by lia.
    by rewrite take_app_length.
  - right. done.
Qed.

Lemma effect_step_one_code_unit_samplePrompts :
  ∃ p c, samplePrompts !! 0%nat = Some p
         ∧ p !! 3%nat = Some c
         ∧ displayedText (setDisplayedText (lit "How ") initial)
           = lit "How" ++ [c]
         ∧ isTyping (setDisplayedText (lit "How ") initial) = true.
Proof.
  assert (prefix_inv samplePrompts (setDisplayedText (lit "How") initial))
    as Hinv.
  { eexists. split; [reflexivity |]. split; [by eexists | done]. }
  exact (effect_step_one_code_unit samplePrompts
           (setDisplayedText (lit "How") initial)
           (setDisplayedText (lit "How ") initial) Hinv eq_refl).
Defined.

(** ** The text shown at every step *)

(** X4: for a non-empty list of [n] prompts, [j] scheduled steps into the
    [k]-th cycle the page shows the first [j] code units of prompt
    [k mod n] while [j] is at most its length, the typing flag on, and its
    first [2 * length + 1 - j] code units afterwards, the typing flag off;
    so each cycle starts with the empty text and shows the whole prompt
    when [j] is its length. *)
Theorem displayedText_during_cycle (prompts : list jsstring) (k j : nat) :
  prompts ≠ [] → (j < cycleLength prompts k)%nat →
  ∃ p s,
    prompts !! (k `mod` length prompts)%nat = Some p
    ∧ ticks prompts (cycleStart prompts k + j) initial = Some s
    ∧ currentSampleIndex s = (k `mod` length prompts)%nat
    ∧ ((j ≤ length p)%nat →
         displayedText s = take j p ∧ isTyping s = true)
    ∧ ((length p < j)%nat →
         displayedText s = take (2 * length p + 1 - j) p
         ∧ isTyping s = false)
    ∧ (j = 0%nat → displayedText s = [])
    ∧ (j = length p → displayedText s = p).
Proof.
  intros Hne Hj.
  destruct (ticks_in_cycle prompts Hne k j Hj) as (p & Hp & Ht).
  exists p, (cycleState initial (k `mod` length prompts) p j).
  split; [done |]. split; [done |].
  split; [apply currentSampleIndex_cycleState |].
  unfold cycleState.
  destruct (Nat.leb_spec j (length p)) as [Hle | Hgt]; simpl.
  - split; [done |]. split; [lia |]. split.
    + by intros ->.
    + intros ->. apply firstn_all.
  - split; [lia |]. split; [done |]. split; lia.
Qed.

Lemma displayedText_during_cycle_samplePrompts :
  ∃ s, ticks samplePrompts (cycleStart samplePrompts 1 + 45) initial = Some s
       ∧ currentSampleIndex s = 1%nat
       ∧ displayedText s
         = lit "What's the best way to set up alerting rules?".
Proof.
  assert (samplePrompts ≠ []) as Hne by done.
  assert (45 < cycleLength samplePrompts 1)%nat as Hj by (vm_compute; lia).
  destruct (displayedText_during_cycle samplePrompts 1 45 Hne Hj)
    as (p & s & Hp & Ht & Hi & _ & _ & _ & Hfull).
  injection Hp as <-.
  exists s. exact (conj Ht (conj Hi (Hfull eq_refl))).
Defined.

(** X5: the animation is periodic: after the steps of one cycle for each
    prompt it is back in the initial state, so the run from any moment on
    repeats the run from the beginning. *)
Theorem animation_is_periodic (prompts : list jsstring) (m : nat) :
  prompts ≠ [] →
  ticks prompts (cycleStart prompts (length prompts)) initial = Some initial
  ∧ ticks prompts (cycleStart prompts (length prompts) + m) initial
    = ticks prompts m initial.
Proof.
  intros Hne.
  assert (ticks prompts (cycleStart prompts (length prompts)) initial
          = Some initial) as H.
  { rewrite ticks_cycleStart by done. by rewrite Nat.Div0.mod_same. }
  split; [done |]. by rewrite ticks_add, H.
Qed.

Lemma animation_is_periodic_samplePrompts :
  cycleStart samplePrompts (length samplePrompts) = 289%nat
  ∧ ticks samplePrompts 289 initial = Some initial
  ∧ ticks samplePrompts (289 + 7) initial = ticks samplePrompts 7 initial.
Proof.
  assert (samplePrompts ≠ []) as Hne by done.
  exact (conj eq_refl (animation_is_periodic samplePrompts 7 Hne)).
Defined.

(** ** The duration of a cycle *)

Section CycleTime.

Variable prompts : list jsstring.

(** The delay armed at each step of a cycle. *)
Lemma scheduledDelay_cycleState base i p j :
  prompts !! i = Some p → (j ≤ 2 * length p)%nat →
  scheduledDelay prompts (cycleState base i p j)
  = Some (if (j <? length p)%nat then revealDelay
          else if (j =? length p)%nat then holdDuration else eraseDelay).
Proof.
  intros Hp Hj. unfold scheduledDelay, cycleState.
  destruct (Nat.leb_spec j (length p)) as [Hle | Hgt].
  - destruct (effect_cases prompts (anim base i (take j p) true))
      as [q Ht Hq Hl | q Ht Hq Hl | Ht Hq | Ht Hd | Ht Hd];
      simpl in *; simplify_eq; rewrite length_take in Hl.
    + by rewrite (proj2 (Nat.ltb_lt _ _)) by lia.
    + rewrite (proj2 (Nat.ltb_ge _ _)) by lia.
      by rewrite (proj2 (Nat.eqb_eq _ _)) by lia.
  - rewrite (proj2 (Nat.ltb_ge _ _)) by lia.
    rewrite (proj2 (Nat.eqb_neq _ _)) by lia.
    destruct (effect_cases prompts
                (anim base i (take (2 * length p + 1 - j) p) false))
      as [q Ht Hq Hl | q Ht Hq Hl | Ht Hq | Ht Hd | Ht Hd];
      simpl in *; simplify_eq; [done |].
    apply (f_equal length) in Hd. rewrite length_take in Hd. simpl in Hd. lia.
Qed.

Lemma remainingTime_end L j :
  (2 * L + 1 ≤ j)%nat → remainingTime L j = 0.
Proof.
  intros Hj. unfold remainingTime.
  destruct (Nat.leb_spec j L); [lia |].
  replace (2 * L + 1 - j)%nat with 0%nat by lia. reflexivity.
Qed.

Lemma elapsed_cycleState base i p r j :
  prompts !! i = Some p → (j + r = 2 * length p + 1)%nat →
  elapsed prompts r (cycleState base i p j)
  = Some (remainingTime (length p) j).
Proof.
  intros Hp. revert j. induction r as [| r IH]; intros j Hj.
  - cbn [elapsed]. by rewrite remainingTime_end by lia.
  - cbn [elapsed]. rewrite scheduledDelay_cycleState by (done || lia).
    cbn [mbind option_bind].
    assert (∃ s', tick prompts (cycleState base i p j) = Some s'
                  ∧ elapsed prompts r s'
                    = Some (remainingTime (length p) (S j))) as (s' & -> & Hs').
    { destruct (decide (j < 2 * length p)%nat) as [Hlt | Hge].
      - eexists. split; [by apply tick_cycleState |]. apply IH. lia.
      - assert (j = (2 * length p)%nat) as -> by lia.
        assert (r = 0%nat) as -> by lia.
        eexists. split; [by apply tick_cycleState_last |]. cbn [elapsed].
        by rewrite remainingTime_end by lia. }
    cbn [mbind option_bind]. rewrite Hs'. cbn [mbind option_bind].
    f_equal. unfold remainingTime, revealDelay, holdDuration, eraseDelay.
    destruct (Nat.ltb_spec j (length p)); destruct (Nat.eqb_spec j (length p));
      destruct (Nat.leb_spec j (length p));
      destruct (Nat.leb_spec (S j) (length p)); lia.
Qed.

End CycleTime.

(** X6: undisturbed, the cycle of a prompt of [L] code units arms
    [2 * L + 1] timeouts whose delays add up to [80 * L + 2000] ms: [L]
    reveals of 50 ms, one hold of 2000 ms and [L] erasures of 30 ms; the
    move to the next prompt arms none. *)
Theorem cycle_takes_80L_plus_2000ms
    (prompts : list jsstring) (base : State) (i : nat) (p : jsstring) :
  prompts !! i = Some p →
  elapsed prompts (2 * length p + 1) (anim base i [] true)
  = Some (80 * len p + 2000)
  ∧ ticks prompts (2 * length p + 1) (anim base i [] true)
    = Some (anim base ((i + 1) `mod` length prompts) [] true).
Proof.
  intros Hp. split; [| by apply ticks_cycle].
  pose proof (elapsed_cycleState prompts base i p (2 * length p + 1) 0 Hp
                eq_refl) as H.
  unfold cycleState in H. simpl in H. rewrite take_0 in H.
  replace (length p + (length p + 0) + 1)%nat with (2 * length p + 1)%nat in H
    by lia.
  rewrite H. f_equal.
  unfold remainingTime, revealDelay, holdDuration, eraseDelay, len. simpl.
  lia.
Qed.

Lemma cycle_takes_80L_plus_2000ms_samplePrompts :
  elapsed samplePrompts 107 initial = Some 6240.
Proof.
  exact (proj1 (cycle_takes_80L_plus_2000ms samplePrompts initial 0
                  (lit "How do I create a dashboard for monitoring CPU usage?")
                  eq_refl)).
Defined.

(** ** The animation and the form do not read each other *)

Section Independence.

Variable prompts : list jsstring.
Implicit Types base s a : State.
Implicit Types p q : Page.

Lemma reform_same_form base s :
  query base = query s → isLoading base = isLoading s →
  webSearchEnabled base = webSearchEnabled s → reform base s = s.
Proof. destruct s. unfold reform, anim. simpl. by intros -> -> ->. Qed.

Lemma reform_same_animation base a s :
  currentSampleIndex a = currentSampleIndex s →
  displayedText a = displayedText s → isTyping a = isTyping s →
  reform base a = reform base s.
Proof. unfold reform. by intros -> -> ->. Qed.

Lemma reform_inj base s0 s :
  same_form s0 s → reform base s0 = reform base s → s0 = s.
Proof.
  destruct s0, s. unfold same_form, reform, anim. simpl.
  intros (-> & -> & ->) [=]. by subst.
Qed.

Lemma effect_reform base s :
  effect prompts (reform base s) = effect prompts s.
Proof. by apply effect_ext. Qed.

Lemma effect_step_reform base s :
  effect_step prompts (reform base s) = reform base <$> effect_step prompts s.
Proof.
  unfold effect_step. rewrite effect_reform.
  by destruct (effect_cases prompts s).
Qed.

Lemma settle_reform base s :
  settle prompts (reform base s) = reform base <$> settle prompts s.
Proof.
  unfold settle. rewrite effect_reform.
  destruct (effect_cases prompts s); try done.
  change (nextSample prompts (reform base s))
    with (reform base (nextSample prompts s)).
  rewrite effect_reform. by destruct (effect prompts _).
Qed.

Lemma commit_reform base s0 s :
  same_form s0 s →
  commit prompts (reform base s0) (reform base s)
  = reform base <$> commit prompts s0 s.
Proof.
  intros Hf. unfold commit. destruct (decide (s0 = s)) as [-> | Hne].
  - by rewrite decide_True.
  - rewrite decide_False; [apply settle_reform |].
    intros E. by apply Hne, (reform_inj base).
Qed.

Lemma tick_reform base s :
  tick prompts (reform base s) = reform base <$> tick prompts s.
Proof.
  unfold tick. rewrite effect_reform.
  destruct (effect_cases prompts s) as [q ? ? ? | q ? ? ? | | |]; try done.
  - exact (commit_reform base s
             (setDisplayedText (take (S (length (displayedText s))) q) s)
             (conj eq_refl (conj eq_refl eq_refl))).
  - exact (commit_reform base s (setIsTyping false s)
             (conj eq_refl (conj eq_refl eq_refl))).
  - exact (commit_reform base s
             (setDisplayedText
                (take (length (displayedText s) - 1) (displayedText s)) s)
             (conj eq_refl (conj eq_refl eq_refl))).
Qed.

(** A scheduled step after a change of the form cells. *)
Lemma tick_after_form_update (f : State → State) s :
  (∀ s', same_form s s' → f s' = reform (f s) s') →
  tick prompts (f s) = f <$> tick prompts s.
Proof.
  intros Hf.
  assert (same_form s s) as Hss by done.
  rewrite (Hf s Hss), tick_reform.
  destruct (tick prompts s) as [s' |] eqn:Et; [| done]. simpl.
  by rewrite (Hf s' (tick_frame _ _ _ Et)).
Qed.

(** The events of the form on a page with other animation cells. *)
Lemma dispatch_setAnimation a p ev :
  ev ≠ AnimationTimeout →
  settled prompts (state p) → settled prompts a →
  dispatch prompts (setAnimation a p) ev
  = setAnimation a <$> dispatch prompts p ev.
Proof.
  intros Hev Hs Ha.
  assert (settled prompts (state (setAnimation a p))) as Hs'
    by (by apply (settled_ext prompts a)).
  rewrite !dispatch_settled by done.
  destruct ev as [v | e | | | |]; try done;
    cbn [fmap option_fmap option_map]; f_equal.
  - unfold inputDisabled.
    change (isLoading (state (setAnimation a p)))
      with (isLoading (state p)).
    by destruct (isLoading (state p)).
  - destruct (bool_decide _); [| done].
    unfold submitDisabled, handleSubmit.
    change (isLoading (state (setAnimation a p)))
      with (isLoading (state p)).
    change (query (state (setAnimation a p))) with (query (state p)).
    destruct (truthy _); [| done]. by destruct (isLoading (state p)).
  - unfold submitDisabled, handleSubmit.
    change (isLoading (state (setAnimation a p)))
      with (isLoading (state p)).
    change (query (state (setAnimation a p))) with (query (state p)).
    destruct (truthy _); [| done]. by destruct (isLoading (state p)).
  - change (loadingTimeouts (setAnimation a p)) with (loadingTimeouts p).
    by destruct (loadingTimeouts p).
Qed.

(** The events of the form leave the animation cells alone. *)
Lemma dispatch_keeps_animation p ev :
  ev ≠ AnimationTimeout → settled prompts (state p) →
  ∃ q, dispatch prompts p ev = Some q
       ∧ currentSampleIndex (state q) = currentSampleIndex (state p)
       ∧ displayedText (state q) = displayedText (state p)
       ∧ isTyping (state q) = isTyping (state p).
Proof.
  intros Hev Hs. rewrite dispatch_settled by done.
  destruct ev as [v | e | | | |]; try done; eexists; (split; [done |]).
  - by destruct (inputDisabled _).
  - destruct (handleSubmit_animation p) as (? & ? & ?).
    destruct (bool_decide _); [| done]. by destruct (submitDisabled _).
  - destruct (handleSubmit_animation p) as (? & ? & ?).
    by destruct (submitDisabled _).
  - done.
  - by destruct (loadingTimeouts p).
Qed.

Lemma animation_commutes p ev :
  settled prompts (state p) → ev ≠ AnimationTimeout →
  run prompts [ev; AnimationTimeout] p = run prompts [AnimationTimeout; ev] p.
Proof.
  intros Hs Hev. cbn [run].
  destruct (dispatch_keeps_animation p ev Hev Hs) as (q & Hq & Hi & Hd & Ht).
  rewrite Hq. cbn [mbind option_bind dispatch].
  assert (state q = reform (state q) (state p)) as Hsq.
  { rewrite <- (reform_same_animation (state q) (state q) (state p)) by done.
    by rewrite reform_same_form. }
  rewrite Hsq at 1. rewrite tick_reform.
  destruct (tick prompts (state p)) as [s' |] eqn:Et; [| done].
  cbn [fmap option_fmap option_map mbind option_bind].
  destruct (tick_frame _ _ _ Et) as (Hfq & Hfl & Hfw).
  assert (withState p s' = setAnimation s' p) as ->.
  { unfold setAnimation. by rewrite reform_same_form. }
  rewrite dispatch_setAnimation, Hq; [done | done | done |].
  by apply (tick_settled prompts (state p)).
Qed.

End Independence.

(** X7: the animation reads no cell of the form: an update of the effect,
    a scheduled step and the delay armed are the same whatever the query,
    the loading flag and the web-search flag, and they hand these cells
    back unchanged. In particular typing in the input, or a submission
    starting or ending, does not change what the animation does next. *)
Theorem animation_ignores_form (prompts : list jsstring) (base s : State) :
  effect_step prompts (reform base s) = reform base <$> effect_step prompts s
  ∧ tick prompts (reform base s) = reform base <$> tick prompts s
  ∧ scheduledDelay prompts (reform base s) = scheduledDelay prompts s
  ∧ (∀ v, tick prompts (setQuery v s) = setQuery v <$> tick prompts s)
  ∧ (∀ b, tick prompts (setIsLoading b s)
          = setIsLoading b <$> tick prompts s).
Proof.
  split; [apply effect_step_reform |]. split; [apply tick_reform |].
  split; [unfold scheduledDelay; by rewrite effect_reform |].
  split; intros x; apply tick_after_form_update;
    intros s' (Hq & Hl & Hw); destruct s, s'; simpl in *; by subst.
Qed.

(** X8: on a page with a pending animation timeout, that timeout firing
    commutes with every other event: a change of the input, a key press, a
    submit click, a click on the web-search button and a submission timeout
    give the same page whether the animation steps before or after. *)
Theorem animation_commutes_with_form_events
    (prompts : list jsstring) (p : Page) (ev : Event) :
  settled prompts (state p) → ev ≠ AnimationTimeout →
  run prompts [ev; AnimationTimeout] p = run prompts [AnimationTimeout; ev] p.
Proof. apply animation_commutes. Qed.

Lemma animation_commutes_with_form_events_ready :
  run samplePrompts [SubmitClick; AnimationTimeout] ready
  = run samplePrompts [AnimationTimeout; SubmitClick] ready.
Proof.
  assert (settled samplePrompts (state ready)) as Hs by (by eexists).
  assert (SubmitClick ≠ AnimationTimeout) as Hev by discriminate.
  exact (animation_commutes_with_form_events samplePrompts ready SubmitClick
           Hs Hev).
Defined.

(** ** One simulated request at a time *)

Lemma dispatch_loading_has_query prompts p ev q :
  page_inv prompts p → loading_has_query p →
  dispatch prompts p ev = Some q → loading_has_query q.
Proof.
  intros (_ & Hs & _) Hlq. rewrite dispatch_settled by done.
  unfold loading_has_query in *.
  destruct ev as [v | e | | | |].
  - intros [= <-]. unfold inputDisabled.
    destruct (isLoading (state p)) eqn:El; [intros _; by apply Hlq |].
    simpl. by rewrite El.
  - intros [= <-]. destruct (bool_decide _); [| done].
    unfold submitDisabled, handleSubmit.
    destruct (truthy _) eqn:Et; simpl; [| done].
    destruct (isLoading (state p)) eqn:El; simpl;
      intros _; by apply truthy_true.
  - intros [= <-]. unfold submitDisabled, handleSubmit.
    destruct (truthy _) eqn:Et; simpl; [| done].
    destruct (isLoading (state p)) eqn:El; simpl;
      intros _; by apply truthy_true.
  - by intros [= <-].
  - destruct (tick prompts (state p)) as [s' |] eqn:Et; [| done].
    intros [= <-]. unfold withState. simpl.
    destruct (tick_frame _ _ _ Et) as (-> & -> & _). done.
  - intros [= <-]. by destruct (loadingTimeouts p).
Qed.

Lemma run_loading_has_query prompts evs p q :
  page_inv prompts p → loading_has_query p →
  run prompts evs p = Some q → loading_has_query q.
Proof.
  revert p. induction evs as [| ev evs IH]; intros p Hinv Hlq; simpl.
  - by intros [= <-].
  - destruct (dispatch prompts p ev) as [p' |] eqn:Ed; [| done]. simpl.
    apply IH; [by eapply dispatch_page_inv |].
    by eapply dispatch_loading_has_query.
Qed.

(** X9: on every page the user can reach, a submission timeout is pending
    exactly while [isLoading] is true, there is never more than one, its
    delay is 3000 ms, and while the page is loading the trimmed query is
    not empty. *)
Theorem one_request_at_a_time (prompts : list jsstring) (p : Page) :
  prompts ≠ [] → reachable prompts p →
  loadingTimeouts p = (if isLoading (state p) then [3000] else [])
  ∧ (length (loadingTimeouts p) ≤ 1)%nat
  ∧ (isLoading (state p) = true → trim (query (state p)) ≠ []).
Proof.
  intros Hne Hr.
  destruct (reachable_page_inv prompts p Hne Hr) as (_ & _ & Hload).
  split; [done |]. split.
  - rewrite Hload. destruct (isLoading (state p)); simpl; lia.
  - destruct Hr as [evs Hrun]. rewrite mountPage_initial in Hrun by done.
    simpl in Hrun.
    eapply (run_loading_has_query prompts evs); [| | done].
    + apply mountPage_page_inv; [done |]. by apply mountPage_initial.
    + intros [=].
Qed.

Lemma one_request_at_a_time_busy :
  loadingTimeouts busy = [3000]
  ∧ (length (loadingTimeouts busy) ≤ 1)%nat
  ∧ trim (query (state busy)) ≠ [].
Proof.
  assert (samplePrompts ≠ []) as Hne by done.
  assert (reachable samplePrompts busy) as Hr
    by (by exists [Change (lit "hello"); SubmitClick]).
  destruct (one_request_at_a_time samplePrompts busy Hne Hr)
    as (H1 & H2 & H3).
  exact (conj H1 (conj H2 (H3 eq_refl))).
Defined.

(** X10: the simulated request leaves no trace: on a page the user can
    reach, with a non-empty trimmed query and not loading, a submit click
    followed by the submission timeout gives back the very same page, the
    query still in the input. *)
Theorem submit_then_timeout_restores_page (prompts : list jsstring) (p : Page) :
  prompts ≠ [] → reachable prompts p →
  trim (query (state p)) ≠ [] → isLoading (state p) = false →
  run prompts [SubmitClick; LoadingTimeout] p = Some p.
Proof.
  intros Hne Hr Hq Hl.
  pose proof (reachable_page_inv prompts p Hne Hr) as Hinv.
  pose proof Hinv as (_ & Hs & Hload). rewrite Hl in Hload.
  pose proof (dispatch_submit_enabled prompts p Hs Hq Hl) as Hclick.
  cbn [run]. rewrite Hclick. cbn [mbind option_bind].
  pose proof (dispatch_page_inv prompts p SubmitClick _ Hinv Hclick)
    as (_ & Hs' & _).
  rewrite dispatch_settled by done.
  rewrite (handleSubmit_nonempty p Hq), Hload. simpl.
  unfold loadingTimeoutFires. simpl.
  destruct p as [[qy l w i d t] ts]. simpl in *. by subst.
Qed.

Lemma submit_then_timeout_restores_page_ready :
  run samplePrompts [SubmitClick; LoadingTimeout] ready = Some ready.
Proof.
  assert (samplePrompts ≠ []) as Hne by done.
  assert (reachable samplePrompts ready) as Hr
    by (by exists [Change (lit "hello")]).
  assert (trim (query (state ready)) ≠ []) as Hq by discriminate.
  exact (submit_then_timeout_restores_page samplePrompts ready Hne Hr Hq
           eq_refl).
Defined.

(** ** The web-search button, the input and the keys *)

(** X11: on a page with a pending animation timeout, two clicks on the
    web-search button give back the same page, whether or not the page is
    loading: the button is never disabled. *)
Theorem toggle_twice_restores_page (prompts : list jsstring) (p : Page) :
  settled prompts (state p) →
  run prompts [ToggleClick; ToggleClick] p = Some p.
Proof.
  intros Hs. cbn [run].
  rewrite (dispatch_settled prompts p ToggleClick Hs).
  cbn [mbind option_bind].
  rewrite dispatch_settled by done. simpl.
  destruct p as [[qy l w i d t] ts]. unfold toggleWebSearch, withState.
  simpl. by rewrite negb_involutive.
Qed.

Lemma toggle_twice_restores_page_busy :
  run samplePrompts [ToggleClick; ToggleClick] busy = Some busy.
Proof.
  assert (settled samplePrompts (state busy)) as Hs by (by eexists).
  exact (toggle_twice_restores_page samplePrompts busy Hs).
Defined.

(** X12: on a page that is not loading, what the user types is stored as
    the query as it is, white space included, and shown as the value of
    the input; the submit button is then disabled exactly when every code
    unit typed is white space, and otherwise a submit click starts loading
    with the query untrimmed. *)
Theorem typed_query_is_stored_verbatim
    (prompts : list jsstring) (p : Page) (value : jsstring) :
  settled prompts (state p) → isLoading (state p) = false →
  ∃ q, dispatch prompts p (Change value) = Some q
       ∧ state q = setQuery value (state p)
       ∧ loadingTimeouts q = loadingTimeouts p
       ∧ inputValue (view (state q)) = value
       ∧ (submitIsDisabled (view (state q)) = true
            ↔ forallb isWhiteSpace value = true)
       ∧ (forallb isWhiteSpace value = false →
            ∃ q', dispatch prompts q SubmitClick = Some q'
                  ∧ query (state q') = value
                  ∧ isLoading (state q') = true).
Proof.
  intros Hs Hl. rewrite dispatch_settled by done.
  unfold inputDisabled. rewrite Hl.
  exists (handleChange value p).
  split; [done |]. split; [done |]. split; [done |]. split; [done |].
  split.
  - simpl. rewrite submitDisabled_spec. simpl. rewrite Hl, trim_nil.
    split; [by intros [? | ?] | by left].
  - intros Hws.
    assert (trim value ≠ []) as Hq.
    { intros E%trim_nil. congruence. }
    assert (settled prompts (state (handleChange value p))) as Hs'
      by (by apply (settled_ext prompts (state p))).
    rewrite (dispatch_submit_enabled prompts (handleChange value p) Hs')
      by done.
    eexists. split; [done |].
    rewrite (handleSubmit_nonempty (handleChange value p)) by done. done.
Qed.

Lemma typed_query_is_stored_verbatim_examples :
  (∃ q, dispatch samplePrompts ready (Change (lit "  cpu ")) = Some q
        ∧ query (state q) = lit "  cpu "
        ∧ dispatch samplePrompts q SubmitClick
          = Some {| state := setIsLoading true (state q);
                    loadingTimeouts := [3000] |})
  ∧ (∃ q, dispatch samplePrompts ready (Change (lit "   ")) = Some q
          ∧ submitIsDisabled (view (state q)) = true).
Proof.
  assert (settled samplePrompts (state ready)) as Hs by (by eexists).
  destruct (typed_query_is_stored_verbatim samplePrompts ready
              (lit "  cpu ") Hs eq_refl)
    as (q1 & Hd1 & Hq1 & _ & _ & _ & _).
  destruct (typed_query_is_stored_verbatim samplePrompts ready
              (lit "   ") Hs eq_refl)
    as (q2 & Hd2 & _ & _ & _ & Hw2 & _).
  split.
  - exists q1. split; [exact Hd1 |]. injection Hd1 as <-. by split.
  - exists q2. split; [exact Hd2 |]. by apply Hw2.
Defined.



(** ** What is on screen *)

(** X14: the sample prompt line is rendered exactly when the query is the
    empty string, untrimmed; it then shows the displayed text between
    double quotes followed by the cursor bar, and the submit button is
    disabled. A query of white space alone hides the line and leaves the
    button disabled. *)
Theorem sample_prompt_shown_iff_query_empty (s : State) :
  (is_Some (samplePromptText (view s)) ↔ query s = [])
  ∧ (query s = [] →
       samplePromptText (view s)
       = Some ([quote] ++ displayedText s ++ [quote] ++ lit "|")
       ∧ submitIsDisabled (view s) = true)
  ∧ (query s ≠ [] → forallb isWhiteSpace (query s) = true →
       samplePromptText (view s) = None
       ∧ submitIsDisabled (view s) = true).
Proof.
  unfold view. simpl. split; [| split].
  - destruct (query s); simpl; split; try done; by intros [? ?].
  - intros Hq. rewrite Hq. split; [done |].
    apply submitDisabled_spec. left. by rewrite Hq.
  - intros Hq Hws. split.
    + by destruct (query s).
    + apply submitDisabled_spec. left. by apply trim_nil.
Qed.

Lemma sample_prompt_shown_iff_query_empty_examples :
  samplePromptText (view (setDisplayedText (lit "How") initial))
    = Some ([quote] ++ lit "How" ++ [quote] ++ lit "|")
  ∧ samplePromptText (view (setQuery (lit " ") initial)) = None
  ∧ submitIsDisabled (view (setQuery (lit " ") initial)) = true.
Proof.
  destruct (sample_prompt_shown_iff_query_empty
              (setDisplayedText (lit "How") initial)) as (_ & H1 & _).
  destruct (sample_prompt_shown_iff_query_empty
              (setQuery (lit " ") initial)) as (_ & _ & H2).
  assert (query (setQuery (lit " ") initial) ≠ []) as Hq by discriminate.
  exact (conj (proj1 (H1 eq_refl)) (H2 Hq eq_refl)).
Defined.

(** X15: on every page the user can reach, the loading indicator is
    rendered exactly while a submission timeout is pending; the input and
    the submit button are then disabled, the border has its fast classes,
    and the query shown in the input is not white space alone. *)
Theorem loading_indicator_iff_timeout_pending
    (prompts : list jsstring) (p : Page) :
  prompts ≠ [] → reachable prompts p →
  (is_Some (loadingText (view (state p))) ↔ loadingTimeouts p ≠ [])
  ∧ (loadingTimeouts p ≠ [] →
       loadingText (view (state p)) = Some (lit "Processing your query...")
       ∧ inputIsDisabled (view (state p)) = true
       ∧ submitIsDisabled (view (state p)) = true
       ∧ pulseClass (view (state p)) = lit "animate-pulse-fast"
       ∧ gradientClass (view (state p)) = lit "animate-gradient-fast"
       ∧ forallb isWhiteSpace (inputValue (view (state p))) = false)
  ∧ (loadingTimeouts p = [] →
       loadingText (view (state p)) = None
       ∧ inputIsDisabled (view (state p)) = false
       ∧ pulseClass (view (state p)) = lit ""
       ∧ gradientClass (view (state p)) = lit "animate-gradient").
Proof.
  intros Hne Hr.
  destruct (reachable_page_inv prompts p Hne Hr) as (_ & _ & Hload).
  assert (loading_has_query p) as Hlq.
  { destruct Hr as [evs Hrun]. rewrite mountPage_initial in Hrun by done.
    simpl in Hrun.
    eapply (run_loading_has_query prompts evs); [| | done].
    - apply mountPage_page_inv; [done |]. by apply mountPage_initial.
    - intros [=]. }
  unfold loading_has_query in Hlq.
  unfold view, inputDisabled, submitDisabled. simpl. rewrite Hload.
  destruct (isLoading (state p)); simpl.
  - split; [split; [done | by eexists] |]. split; [| done].
    intros _. rewrite orb_true_r. repeat (split; [done |]).
    destruct (forallb isWhiteSpace (query (state p))) eqn:E; [| done].
    apply trim_nil in E. by destruct Hlq.
  - split; [split; [by intros [? ?] | done] |]. split; done.
Qed.

Lemma loading_indicator_iff_timeout_pending_busy :
  loadingText (view (state busy)) = Some (lit "Processing your query...")
  ∧ inputIsDisabled (view (state busy)) = true
  ∧ submitIsDisabled (view (state busy)) = true.
Proof.
  assert (samplePrompts ≠ []) as Hne by done.
  assert (reachable samplePrompts busy) as Hr
    by (by exists [Change (lit "hello"); SubmitClick]).
  assert (loadingTimeouts busy ≠ []) as Ht by discriminate.
  destruct (loading_indicator_iff_timeout_pending samplePrompts busy Hne Hr)
    as (_ & H & _).
  destruct (H Ht) as (H1 & H2 & H3 & _).
  exact (conj H1 (conj H2 H3)).
Defined.

(** X16: an update of the effect or a scheduled step changes what is
    rendered only through the displayed text: if it leaves the text as it
    is, as the holding update and the move to the next prompt do, the
    rendered page is the same; and while the query is not empty no step of
    the animation changes the rendered page at all. *)
Theorem animation_shows_only_through_text
    (prompts : list jsstring) (s s' : State) :
  effect_step prompts s = Some s' ∨ tick prompts s = Some s' →
  (displayedText s' = displayedText s → view s' = view s)
  ∧ (query s ≠ [] → view s' = view s).
Proof.
  intros H.
  assert (same_form s s') as (Hq & Hl & Hw).
  { destruct H; [by eapply effect_step_frame | by eapply tick_frame]. }
  unfold view, inputDisabled, submitDisabled. rewrite Hq, Hl, Hw.
  split.
  - by intros ->.
  - intros Hne. by destruct (query s).
Qed.

Lemma animation_shows_only_through_text_examples :
  view (setIsTyping false (setDisplayedText (lit "Hi") initial))
    = view (setDisplayedText (lit "Hi") initial)
  ∧ view (setDisplayedText (lit "H") (setQuery (lit "x") initial))
    = view (setQuery (lit "x") initial).
Proof.
  assert (tick HiYo (setDisplayedText (lit "Hi") initial)
          = Some (setIsTyping false (setDisplayedText (lit "Hi") initial)))
    as H1 by reflexivity.
  assert (tick HiYo (setQuery (lit "x") initial)
          = Some (setDisplayedText (lit "H") (setQuery (lit "x") initial)))
    as H2 by reflexivity.
  assert (query (setQuery (lit "x") initial) ≠ []) as Hq by discriminate.
  exact (conj
           (proj1 (animation_shows_only_through_text HiYo _ _ (or_intror H1))
              eq_refl)
           (proj2 (animation_shows_only_through_text HiYo _ _ (or_intror H2))
              Hq)).
Defined.

(** X17: no handler of the form writes a cell of the animation: on a page
    with a pending animation timeout, a change of the input, a key press,
    a submit click, a click on the web-search button and a submission
    timeout all run to a page with the same index, displayed text and
    typing flag, on which an animation timeout is still pending with the
    same delay. *)
Theorem form_events_keep_animation
    (prompts : list jsstring) (p : Page) (ev : Event) :
  settled prompts (state p) → ev ≠ AnimationTimeout →
  ∃ q, dispatch prompts p ev = Some q
       ∧ currentSampleIndex (state q) = currentSampleIndex (state p)
       ∧ displayedText (state q) = displayedText (state p)
       ∧ isTyping (state q) = isTyping (state p)
       ∧ scheduledDelay prompts (state q) = scheduledDelay prompts (state p).
Proof.
  intros Hs Hev.
  destruct (dispatch_keeps_animation prompts p ev Hev Hs)
    as (q & Hq & Hi & Hd & Ht).
  exists q. repeat (split; [done |]).
  unfold scheduledDelay. by rewrite (effect_ext prompts (state q) (state p)).
Qed.

Lemma form_events_keep_animation_examples :
  ∃ q, dispatch samplePrompts
         (withState ready (setDisplayedText (lit "How") (state ready)))
         SubmitClick = Some q
       ∧ displayedText (state q) = lit "How"
       ∧ scheduledDelay samplePrompts (state q) = Some 50.
Proof.
  assert (settled samplePrompts
            (state (withState ready
                      (setDisplayedText (lit "How") (state ready))))) as Hs
    by (by eexists).
  assert (SubmitClick ≠ AnimationTimeout) as Hev by discriminate.
  destruct (form_events_keep_animation samplePrompts _ SubmitClick Hs Hev)
    as (q & Hq & _ & Hd & _ & Hdel).
  exists q. exact (conj Hq (conj Hd Hdel)).
Defined.
